(** * ls11: a shallow embedding of [src/ls11.c]

    The C program lists one directory and, with [-R], the directories below
    it, using a singly linked list of pending directories as its work queue.
    This file embeds the functions of [ls11.c] as Rocq functions and proves
    the properties of the specification about them.

    Conventions of the embedding.
    - A C string is a [string] without the character NUL; reading the byte at
      the length of the string yields the terminator ([char_at]).
    - [mode_t] and the other integer fields of [struct stat] are [Z]; the bit
      tests of the code are written with [Z.land], and [int] and [time_t]
      arithmetic wraps ([int_wrap], [long_wrap]).
    - The operating system is a record of functions ([filesys]): what
      [opendir]/[readdir], [lstat], [stat] and [readlink] answer for a path,
      the same throughout a run; [lstat] refuses a path of [PATH_MAX] bytes
      or more, and [opendir] the empty path.
    - Output is a trace of events in program order, one for each header,
      each entry and each diagnostic, with the stream it is written to.
      Open directory streams are part of the state, so that
      [opendir]/[closedir] pairing can be stated.
    - The linked list of [struct dir_path] is the list of its nodes, and the
      pointer [subque] a position in it ([cursor]).  [xmalloc] is taken to
      succeed: its failure ends the program.
    - The path buffer of [list_dir] holds a terminated string only when
      prefix and name have fewer than [PATH_MAX] bytes; what a reader finds
      past an unterminated buffer is the platform's ([past_buffer]).
    - The command line reaches [parse_cmd_args] as the values that
      [getopt_long] returns ([Cli]). *)

From Stdlib Require Import ZArith List String Ascii Bool Lia.
From Stdlib Require Import Numbers.DecimalString.
Import ListNotations.

Open Scope string_scope.
Open Scope Z_scope.

(** ** C strings *)

Module CStr.

(** The byte [s[i]] of a NUL-terminated string: the terminator at (and, for
    totality, after) the end. *)
Definition char_at (s : string) (i : nat) : ascii :=
  match String.get i s with
  | Some c => c
  | None => "000"%char
  end.

(** A Rocq string is a C string when no character of it is NUL. *)
Fixpoint c_string (s : string) : Prop :=
  match s with
  | EmptyString => True
  | String c r => c <> "000"%char /\ c_string r
  end.

(** What [strncpy(dst, src, n)] leaves in [dst], read as a C string with the
    byte after the [n] copied ones taken as the terminator. *)
Fixpoint strncpy (n : nat) (src : string) : string :=
  match n, src with
  | O, _ => EmptyString
  | S _, EmptyString => EmptyString
  | S k, String c r => String c (strncpy k r)
  end.

Definition strlen (s : string) : Z := Z.of_nat (String.length s).

(** The last byte of a string, [s[strlen(s) - 1]]. *)
Definition last_char (s : string) : ascii :=
  char_at s (String.length s - 1).

Definition nl : string := String "010"%char EmptyString.
Definition esc : string := String "027"%char EmptyString.

End CStr.

Import CStr.

(** ** File modes ([<sys/stat.h>], Linux values) *)

Module Mode.

Definition mode_t := Z.

Definition S_IFMT   : Z := 61440. (* 0170000 *)
Definition S_IFSOCK : Z := 49152. (* 0140000 *)
Definition S_IFLNK  : Z := 40960. (* 0120000 *)
Definition S_IFREG  : Z := 32768. (* 0100000 *)
Definition S_IFBLK  : Z := 24576. (* 0060000 *)
Definition S_IFDIR  : Z := 16384. (* 0040000 *)
Definition S_IFCHR  : Z := 8192.  (* 0020000 *)
Definition S_IFIFO  : Z := 4096.  (* 0010000 *)

Definition S_ISUID : Z := 2048. (* 04000 *)
Definition S_ISGID : Z := 1024. (* 02000 *)
Definition S_ISVTX : Z := 512.  (* 01000 *)
Definition S_IRUSR : Z := 256.
Definition S_IWUSR : Z := 128.
Definition S_IXUSR : Z := 64.
Definition S_IRGRP : Z := 32.
Definition S_IWGRP : Z := 16.
Definition S_IXGRP : Z := 8.
Definition S_IROTH : Z := 4.
Definition S_IWOTH : Z := 2.
Definition S_IXOTH : Z := 1.

(** [#define S_IXUGO (S_IXUSR | S_IXGRP | S_IXOTH)] *)
Definition S_IXUGO : Z := Z.lor S_IXUSR (Z.lor S_IXGRP S_IXOTH).

(** [mode & mask] used as a C condition. *)
Definition has (mode mask : Z) : bool := negb (Z.land mode mask =? 0).

Definition S_ISTYPE (mode mask : Z) : bool := Z.land mode S_IFMT =? mask.
Definition S_ISBLK  (m : mode_t) : bool := S_ISTYPE m S_IFBLK.
Definition S_ISCHR  (m : mode_t) : bool := S_ISTYPE m S_IFCHR.
Definition S_ISDIR  (m : mode_t) : bool := S_ISTYPE m S_IFDIR.
Definition S_ISREG  (m : mode_t) : bool := S_ISTYPE m S_IFREG.
Definition S_ISFIFO (m : mode_t) : bool := S_ISTYPE m S_IFIFO.
Definition S_ISLNK  (m : mode_t) : bool := S_ISTYPE m S_IFLNK.
Definition S_ISSOCK (m : mode_t) : bool := S_ISTYPE m S_IFSOCK.

(** [get_mode_string]: the ten characters written to [str[0..9]]. *)
Definition get_mode_string (mode : mode_t) : string :=
  String (if S_ISBLK mode then "b" else
          if S_ISCHR mode then "c" else
          if S_ISDIR mode then "d" else
          if S_ISREG mode then "-" else
          if S_ISFIFO mode then "p" else
          if S_ISLNK mode then "l" else
          if S_ISSOCK mode then "s" else "?")%char
 (String (if has mode S_IRUSR then "r" else "-")%char
 (String (if has mode S_IWUSR then "w" else "-")%char
 (String (if has mode S_ISUID
          then (if has mode S_IXUSR then "s" else "S")
          else (if has mode S_IXUSR then "x" else "-"))%char
 (String (if has mode S_IRGRP then "r" else "-")%char
 (String (if has mode S_IWGRP then "w" else "-")%char
 (String (if has mode S_ISGID
          then (if has mode S_IXGRP then "s" else "S")
          else (if has mode S_IXGRP then "x" else "-"))%char
 (String (if has mode S_IROTH then "r" else "-")%char
 (String (if has mode S_IWOTH then "w" else "-")%char
 (String (if has mode S_ISVTX
          then (if has mode S_IXOTH then "t" else "T")
          else (if has mode S_IXOTH then "x" else "-"))%char
  EmptyString))))))))).

(** [print_type_indicator]: the characters put on [stdout]. *)
Definition print_type_indicator (mode : mode_t) : string :=
  if S_ISREG mode then
    (if has mode S_IXUGO then "*" else "")
  else
    if S_ISDIR mode then "/"
    else if S_ISLNK mode then "@"
    else if S_ISFIFO mode then "|"
    else if S_ISSOCK mode then "="
    else "".

End Mode.

Import Mode.

(** ** Configuration: the global flags set by [parse_cmd_args] *)

Inductive filter_t := FILTER_DEFAULT | FILTER_ALMOST | FILTER_ALL.

Definition filter_eqb (a b : filter_t) : bool :=
  match a, b with
  | FILTER_DEFAULT, FILTER_DEFAULT
  | FILTER_ALMOST, FILTER_ALMOST
  | FILTER_ALL, FILTER_ALL => true
  | _, _ => false
  end.

Record config := {
  filter : filter_t;
  color : bool;
  classify : bool;
  long_format : bool;
  half_year_ago : Z;
  recursive : bool
}.

Definition ascii_is (c d : ascii) : bool := Ascii.eqb c d.

(** [name[0] == '.' && name[1 + (name[1] == '.')] == '\0']: the name is
    [.] or [..]. *)
Definition dot_or_dotdot (name : string) : bool :=
  ascii_is (char_at name 0) "."
  && ascii_is (char_at name (1 + (if ascii_is (char_at name 1) "." then 1 else 0))) "000".

(** The condition of the [continue] at the head of the loop of [list_dir]. *)
Definition hidden (f : filter_t) (name : string) : bool :=
  negb (filter_eqb f FILTER_ALL)
  && ascii_is (char_at name 0) "."
  && (filter_eqb f FILTER_DEFAULT
      || ascii_is (char_at name (1 + (if ascii_is (char_at name 1) "." then 1 else 0))) "000").

(** ** Machine integers *)

(** The value of an [int] expression whose mathematical result is [z]
    (two's complement, 32 bits). *)
Definition int_wrap (z : Z) : Z := (z + 2 ^ 31) mod 2 ^ 32 - 2 ^ 31.

(** The same for [long] and [time_t] (64 bits). *)
Definition long_wrap (z : Z) : Z := (z + 2 ^ 63) mod 2 ^ 64 - 2 ^ 63.

Definition INT_MAX : Z := 2 ^ 31 - 1.

(** The values a [time_t] holds. *)
Definition in_time_t (z : Z) : Prop := - 2 ^ 63 <= z <= 2 ^ 63 - 1.

(** ** Printing numbers and padded fields ([printf]) *)

Module Printf.

Definition Z_to_string (z : Z) : string :=
  NilEmpty.string_of_int (Z.to_int z).

Fixpoint spaces (n : nat) : string :=
  match n with
  | O => EmptyString
  | S k => String " "%char (spaces k)
  end.

(** [%ws]: at least [w] characters, right-aligned. *)
Definition pad_left (w : nat) (s : string) : string :=
  spaces (w - String.length s) ++ s.

(** [%wd] of an [int] argument. *)
Definition fmt_d (w : nat) (z : Z) : string :=
  pad_left w (Z_to_string (int_wrap z)).

(** [%wld] of a [long] argument. *)
Definition fmt_ld (w : nat) (z : Z) : string :=
  pad_left w (Z_to_string (long_wrap z)).

End Printf.

Import Printf.

(** ** The platform: file system, user database, C library *)

Inductive sys_result (A : Type) : Type :=
| Ok (a : A)
| Fail (errno : Z).
Arguments Ok {A} a.
Arguments Fail {A} errno.

Record stat_t := {
  st_mode : mode_t;
  st_nlink : Z;
  st_uid : Z;
  st_gid : Z;
  st_rdev : Z;
  st_size : Z;
  st_mtime : Z   (* [st_mtim.tv_sec] *)
}.

Record filesys := {
  (** [opendir] followed by [readdir] until it returns [NULL]: the names in
      enumeration order, or the [errno] of a failed [opendir]. *)
  fs_opendir : string -> sys_result (list string);
  (** [lstat] on a path of fewer than [PATH_MAX] bytes. *)
  sys_lstat : string -> sys_result stat_t;
  fs_stat : string -> sys_result stat_t;
  (** The bytes of the link target, or the [errno] of a failed [readlink]. *)
  fs_readlink : string -> sys_result string;
  getpwuid : Z -> option string;
  getgrgid : Z -> option string;
  strerror : Z -> string;
  (** [strftime(str, 12, fmt, localtime(&time))]: what it leaves in [str]. *)
  strftime_local : string -> Z -> string;
  (** What a reader of the path buffer of [list_dir] finds after its
      [PATH_MAX] bytes when [strncpy] has left no terminator in them: the
      bytes from [path[PATH_MAX]] on, up to the first NUL, for the contents
      given.  The code never writes them. *)
  past_buffer : string -> string
}.

Definition PATH_MAX : Z := 4096.
Definition ENOENT : Z := 2.
Definition ENAMETOOLONG : Z := 36.

(** [lstat]: a path of [PATH_MAX] bytes or more fails with [ENAMETOOLONG]
    (the limit of the system counts the terminator). *)
Definition fs_lstat (fs : filesys) (p : string) : sys_result stat_t :=
  if PATH_MAX <=? strlen p then Fail ENAMETOOLONG else sys_lstat fs p.

(** [opendir]: POSIX fails with [ENOENT] on the empty path. *)
Definition opendir (fs : filesys) (p : string) : sys_result (list string) :=
  if String.eqb p "" then Fail ENOENT else fs_opendir fs p.

(** [major] and [minor] of [<sys/sysmacros.h>] (glibc). *)
Definition major (dev : Z) : Z :=
  Z.lor (Z.land (Z.shiftr dev 8) 4095)
        (Z.land (Z.shiftr dev 32) 4294963200).
Definition minor (dev : Z) : Z :=
  Z.lor (Z.land dev 255)
        (Z.land (Z.shiftr dev 12) 4294967040).

(** ** Output and resources *)

Inductive event :=
| Stdout (s : string)
| Stderr (s : string).

Record world := {
  trace : list event;         (* what was written so far, oldest first *)
  open_dirs : list string     (* directory streams open now, by path *)
}.

Definition emit (e : event) (w : world) : world :=
  {| trace := trace w ++ [e]; open_dirs := open_dirs w |}.

Definition dir_opened (p : string) (w : world) : world :=
  {| trace := trace w; open_dirs := p :: open_dirs w |}.

Fixpoint remove_first (p : string) (l : list string) : list string :=
  match l with
  | [] => []
  | q :: r => if String.eqb p q then r else q :: remove_first p r
  end.

(** [closedir(dir)] *)
Definition closedir (p : string) (w : world) : world :=
  {| trace := trace w; open_dirs := remove_first p (open_dirs w) |}.

(** [perror(s)]: one line on [stderr], the message alone when [s] is the
    empty string. *)
Definition perror (fs : filesys) (s : string) (errno : Z) : event :=
  if String.eqb s "" then Stderr (strerror fs errno ++ nl)
  else Stderr (s ++ ": " ++ strerror fs errno ++ nl).

(** ** Formatters *)

(** [MM/DD HH:MM] and [MM/DD  YYYY] as [strftime] formats. *)
Definition short_format : string := "%m/%d %H:%M".
Definition long_year_format : string := "%m/%d  %Y".

(** The format [get_time_string] passes to [strftime]. *)
Definition time_format (half_year_ago time : Z) : string :=
  if long_wrap (time - half_year_ago) >? 0
  then "%m/%d %H:%M"
  else "%m/%d  %Y".

Definition get_time_string (fs : filesys) (half_year_ago time : Z) : string :=
  strftime_local fs (time_format half_year_ago time) time.

Definition print_user (fs : filesys) (uid : Z) : string :=
  match getpwuid fs uid with
  | Some pw_name => pad_left 8 pw_name ++ " "
  | None => fmt_d 8 uid ++ " "
  end.

Definition print_group (fs : filesys) (gid : Z) : string :=
  match getgrgid fs gid with
  | Some gr_name => pad_left 8 gr_name ++ " "
  | None => fmt_d 8 gid ++ " "
  end.

(** The escape sequence [print_name_with_color] writes before the name
    (nothing when no branch applies). *)
Definition color_escape (mode : mode_t) (link_ok : bool) : string :=
  if negb link_ok then esc ++ "[31m"
  else if S_ISREG mode then
    (if has mode S_ISUID then esc ++ "[37;41m"
     else if has mode S_ISGID then esc ++ "[30;43m"
     else if has mode S_IXUGO then esc ++ "[01;32m"
     else esc ++ "[0m")
  else if S_ISDIR mode then
    (if has mode S_ISVTX && has mode S_IWOTH then esc ++ "[30;42m"
     else if has mode S_IWOTH then esc ++ "[34;42m"
     else if has mode S_ISVTX then esc ++ "[37;44m"
     else esc ++ "[01;34m")
  else if S_ISLNK mode then esc ++ "[01;36m"
  else if S_ISFIFO mode then esc ++ "[33m"
  else if S_ISSOCK mode then esc ++ "[01;35m"
  else if S_ISBLK mode then esc ++ "[01;33m"
  else if S_ISCHR mode then esc ++ "[01;33m"
  else "".

Definition print_name_with_color (name : string) (mode : mode_t) (link_ok : bool) : string :=
  color_escape mode link_ok ++ name ++ (esc ++ "[0m").

(** ** The queue of pending directories *)

(** [struct dir_path] without its [next] field: the linked list is the list
    of its nodes. *)
Record dir_path := {
  path : string;
  depth : Z
}.

(** [new_dir_path(path, depth, next)]: the node; the caller links it. *)
Definition new_dir_path (p : string) (d : Z) : dir_path :=
  {| path := CStr.strncpy (Z.to_nat (PATH_MAX + 1)) p; depth := d |}.

(** The list from [base] on, with the pointer [subque] into it: [upto] holds
    the nodes from [base] up to [subque], last first, and [after] the nodes
    from [subque->next] on. *)
Record cursor := {
  upto : list dir_path;
  after : list dir_path
}.

(** [subque->next = n] with [n->next] the old [subque->next], then
    [subque = subque->next]. *)
Definition insert_after (c : cursor) (n : dir_path) : cursor :=
  {| upto := n :: upto c; after := after c |}.

Definition cursor_list (c : cursor) : list dir_path :=
  rev (upto c) ++ after c.

(** ** [list_dir] *)

Record link_info := {
  link_len : Z;
  link : string;
  link_mode : mode_t;   (* [link_stat.st_mode]; not read when [link_ok] is false *)
  link_ok : bool
}.

(** Lines 335-336 and 355-363: [link_len = 0], [link_ok = true], and for a
    symbolic link [readlink] (at most [PATH_MAX] bytes, -1 on failure) and
    [stat]. *)
Definition resolve_link (fs : filesys) (p : string) (mode : mode_t) : link_info :=
  if S_ISLNK mode then
    let buf :=
      match fs_readlink fs p with
      | Ok target => CStr.strncpy (Z.to_nat PATH_MAX) target
      | Fail _ => ""
      end in
    let len :=
      match fs_readlink fs p with
      | Ok _ => strlen buf
      | Fail _ => -1
      end in
    match fs_stat fs p with
    | Ok link_stat =>
        {| link_len := len; link := buf; link_mode := st_mode link_stat; link_ok := true |}
    | Fail _ =>
        {| link_len := len; link := buf; link_mode := 0; link_ok := false |}
    end
  else
    {| link_len := 0; link := ""; link_mode := 0; link_ok := true |}.

(** Lines 365-377: the fields of the long format. *)
Definition long_fields (fs : filesys) (half_year_ago : Z) (dent_stat : stat_t) : string :=
  get_mode_string (st_mode dent_stat) ++ " "
  ++ fmt_d 3 (st_nlink dent_stat) ++ " "
  ++ print_user fs (st_uid dent_stat)
  ++ print_group fs (st_gid dent_stat)
  ++ (if S_ISCHR (st_mode dent_stat) || S_ISBLK (st_mode dent_stat)
      then fmt_d 4 (major (st_rdev dent_stat)) ++ ","
           ++ fmt_d 4 (minor (st_rdev dent_stat)) ++ " "
      else fmt_ld 9 (st_size dent_stat) ++ " ")
  ++ get_time_string fs half_year_ago (st_mtime dent_stat) ++ " ".

(** Lines 364-397: the line written for one entry. *)
Definition print_entry (cfg : config) (fs : filesys) (name : string)
    (dent_stat : stat_t) (li : link_info) : string :=
  (if long_format cfg then long_fields fs (half_year_ago cfg) dent_stat else "")
  ++ (if color cfg
      then print_name_with_color name (st_mode dent_stat) (link_ok li)
      else name)
  ++ (if classify cfg then print_type_indicator (st_mode dent_stat) else "")
  ++ (if long_format cfg then
        if link_len li >? 0 then
          " -> " ++ (if color cfg
                     then print_name_with_color (link li) (link_mode li) (link_ok li)
                     else link li)
        else ""
      else "")
  ++ nl.

(** The path of an entry: the prefix followed by the name. *)
Definition entry_path (prefix name : string) : string :=
  prefix ++ name.

(** The C string in the buffer [path] after
    [strncpy(&path[path_len], name, PATH_MAX - path_len)].  When prefix and
    name have fewer than [PATH_MAX] bytes, [strncpy] ends the name with NUL
    and the string is the path of the entry.  Otherwise the [PATH_MAX] bytes
    of the buffer hold the prefix and the beginning of the name without a
    terminator, and the string goes on with what lies past them. *)
Definition buffer_path (fs : filesys) (prefix name : string) : string :=
  if strlen prefix + strlen name <? PATH_MAX then entry_path prefix name
  else
    let bytes := prefix ++ CStr.strncpy (Z.to_nat (PATH_MAX - strlen prefix)) name in
    bytes ++ past_buffer fs bytes.

(** The body of the [while ((dent = readdir(dir)) != NULL)] loop, for the
    entries still to be read. *)
Fixpoint read_loop (cfg : config) (fs : filesys) (prefix : string) (base_depth : Z)
    (ents : list string) (subque : cursor) (w : world) : cursor * world :=
  match ents with
  | [] => (subque, w)
  | name :: more =>
      if hidden (filter cfg) name then
        read_loop cfg fs prefix base_depth more subque w
      else
        let p := buffer_path fs prefix name in
        match fs_lstat fs p with
        | Fail e =>
            read_loop cfg fs prefix base_depth more subque (emit (perror fs p e) w)
        | Ok dent_stat =>
            let subque' :=
              if recursive cfg && S_ISDIR (st_mode dent_stat) then
                if negb (dot_or_dotdot name)
                then insert_after subque (new_dir_path p (int_wrap (base_depth + 1)))
                else subque
              else subque in
            let li := resolve_link fs p (st_mode dent_stat) in
            read_loop cfg fs prefix base_depth more subque'
              (emit (Stdout (print_entry cfg fs name dent_stat li)) w)
        end
  end.

(** The prefix of the entry paths: the base path, with a [/] appended unless
    it ends in one. *)
Definition path_prefix (base_path : string) : string :=
  if negb (ascii_is (last_char base_path) "/") then base_path ++ "/" else base_path.

(** [list_dir(base)], with [next] the list [base->next]: the world and the
    list from [base] on when it returns. *)
Definition list_dir (cfg : config) (fs : filesys) (base : dir_path)
    (next : list dir_path) (w : world) : list dir_path * world :=
  let base_path := path base in
  let subque := {| upto := [base]; after := next |} in
  match opendir fs base_path with
  | Fail e => (cursor_list subque, emit (perror fs base_path e) w)
  | Ok ents =>
      let w1 := dir_opened base_path w in
      let path_len := strlen base_path in
      if path_len >=? PATH_MAX - 1 then
        (cursor_list subque, emit (Stderr ("too long path" ++ nl)) w1)
      else
        let (subque', w2) :=
          read_loop cfg fs (path_prefix base_path) (depth base) ents subque w1 in
        (cursor_list subque', closedir base_path w2)
  end.

(** ** [main]: the driver *)

Record state := {
  queue : list dir_path;   (* the list from [head] on *)
  sys : world
}.

(** The header [printf("\n%s:\n", head->path)]. *)
Definition header (d : dir_path) : event :=
  Stdout (nl ++ path d ++ ":" ++ nl).

(** One iteration of [while (head != NULL)]; [None] when the loop ends. *)
Definition main_step (cfg : config) (fs : filesys) (s : state) : option state :=
  match queue s with
  | [] => None
  | head :: next =>
      let w := if negb (depth head =? 0) then emit (header head) (sys s) else sys s in
      let (l, w') := list_dir cfg fs head next w in
      Some {| queue := tl l; sys := w' |}
  end.

(** At most [n] iterations of the loop. *)
Fixpoint run (cfg : config) (fs : filesys) (n : nat) (s : state) : state :=
  match n with
  | O => s
  | S k =>
      match main_step cfg fs s with
      | None => s
      | Some s' => run cfg fs k s'
      end
  end.

Definition no_world : world := {| trace := []; open_dirs := [] |}.

(** [head = new_dir_path(path, 0, NULL)] *)
Definition main_init (p : string) : state :=
  {| queue := [new_dir_path p 0]; sys := no_world |}.

(** ** The specification's vocabulary

    Definitions that follow the words of the specification; the theorems
    below compare them with the functions embedded from the code above. *)

Module Spec.

(** *** Permission strings *)

Inductive file_type :=
| Block | Char | Directory | Regular | Fifo | Symlink | Socket | Unknown.

(** The file type: bits 12 to 15 of the mode. *)
Definition type_of (mode : Z) : file_type :=
  let t := Z.land (Z.shiftr mode 12) 15 in
  if t =? 6 then Block else
  if t =? 2 then Char else
  if t =? 4 then Directory else
  if t =? 8 then Regular else
  if t =? 1 then Fifo else
  if t =? 10 then Symlink else
  if t =? 12 then Socket else Unknown.

Definition glyph (t : file_type) : ascii :=
  match t with
  | Block => "b" | Char => "c" | Directory => "d" | Regular => "-"
  | Fifo => "p" | Symlink => "l" | Socket => "s" | Unknown => "?"
  end.

Definition glyphs : list ascii := ["b"; "c"; "d"; "-"; "p"; "l"; "s"; "?"]%char.

(** Permission bits by position. *)
Definition setuid (mode : Z) : bool := Z.testbit mode 11.
Definition setgid (mode : Z) : bool := Z.testbit mode 10.
Definition sticky (mode : Z) : bool := Z.testbit mode 9.
Definition any_exec (mode : Z) : bool :=
  Z.testbit mode 6 || Z.testbit mode 3 || Z.testbit mode 0.

Definition rw_slot (set : bool) (c : ascii) : ascii :=
  if set then c else "-"%char.

(** An execute slot: the special bit replaces it by [lower] when the execute
    bit is set and by [upper] when it is not. *)
Definition exec_slot (special exec : bool) (lower upper : ascii) : ascii :=
  if special then (if exec then lower else upper)
  else (if exec then "x" else "-")%char.

(** The three slots of one class, whose execute bit is bit [x]. *)
Definition rwx (mode : Z) (x : Z) (special : bool) (lower upper : ascii) : list ascii :=
  [rw_slot (Z.testbit mode (x + 2)) "r";
   rw_slot (Z.testbit mode (x + 1)) "w";
   exec_slot special (Z.testbit mode x) lower upper]%char.

Definition mode_chars (mode : Z) : list ascii :=
  glyph (type_of mode)
  :: rwx mode 6 (setuid mode) "s" "S"
  ++ rwx mode 3 (setgid mode) "s" "S"
  ++ rwx mode 0 (sticky mode) "t" "T".

(** *** Styles: what a terminal makes of an SGR escape sequence (ECMA-48) *)

Inductive ansi_color :=
| Black | Red | Green | Yellow | Blue | Magenta | Cyan | White.

Record style := {
  bold : bool;
  fg : option ansi_color;
  bg : option ansi_color
}.

Definition plain : style := {| bold := false; fg := None; bg := None |}.

Definition color_of (n : nat) : option ansi_color :=
  match n with
  | 0 => Some Black | 1 => Some Red | 2 => Some Green | 3 => Some Yellow
  | 4 => Some Blue | 5 => Some Magenta | 6 => Some Cyan | 7 => Some White
  | _ => None
  end%nat.

(** The effect of one SGR parameter: 0 resets, 1 is bold, 30-37 set the
    foreground and 40-47 the background. *)
Definition apply_sgr (s : style) (n : nat) : style :=
  if Nat.eqb n 0 then plain
  else if Nat.eqb n 1 then {| bold := true; fg := fg s; bg := bg s |}
  else if Nat.leb 30 n && Nat.leb n 37
       then {| bold := bold s; fg := color_of (n - 30); bg := bg s |}
  else if Nat.leb 40 n && Nat.leb n 47
       then {| bold := bold s; fg := fg s; bg := color_of (n - 40) |}
  else s.

Definition digit_of (c : ascii) : option nat :=
  let n := nat_of_ascii c in
  if Nat.leb 48 n && Nat.leb n 57 then Some (n - 48)%nat else None.

(** The parameters of [p1;p2;...m]. *)
Fixpoint parse_params (s : string) (cur : nat) (acc : list nat) : option (list nat) :=
  match s with
  | EmptyString => None
  | String c r =>
      match digit_of c with
      | Some d => parse_params r (10 * cur + d)%nat acc
      | None =>
          if ascii_is c ";" then parse_params r 0%nat (acc ++ [cur])%list
          else if ascii_is c "m" then
            match r with
            | EmptyString => Some (acc ++ [cur])%list
            | _ => None
            end
          else None
      end
  end.

(** The style selected by the sequence [ESC [ p1;p2;... m] on a terminal in
    its default state; [None] when the string is not such a sequence. *)
Definition style_of (s : string) : option style :=
  match s with
  | String e (String b r) =>
      if ascii_is e "027" && ascii_is b "[" then
        option_map (fun ps => fold_left apply_sgr ps plain) (parse_params r 0%nat [])
      else None
  | _ => None
  end.

(** The styles the specification names. *)
Definition red_fg : style := {| bold := false; fg := Some Red; bg := None |}.
Definition bold_red_on_white : style :=
  {| bold := true; fg := Some Red; bg := Some White |}.
Definition white_on_red : style :=
  {| bold := false; fg := Some White; bg := Some Red |}.
Definition black_on_yellow : style :=
  {| bold := false; fg := Some Black; bg := Some Yellow |}.
Definition bold_green : style := {| bold := true; fg := Some Green; bg := None |}.

(** The style of a regular file, by precedence: setuid, setgid, any execute
    bit, none of them. *)
Definition regular_style (setuid_style : style) (mode : Z) : style :=
  if setuid mode then setuid_style
  else if setgid mode then black_on_yellow
  else if any_exec mode then bold_green
  else plain.

End Spec.

(** *** Listing one directory, entry by entry *)

Module Listing.

Section PerEntry.

Variable cfg : config.
Variable fs : filesys.

(** What one entry contributes to the output: nothing when it is hidden, a
    diagnostic when its metadata cannot be read, its line otherwise. *)
Definition entry_events (prefix name : string) : list event :=
  if hidden (filter cfg) name then []
  else
    let p := buffer_path fs prefix name in
    match fs_lstat fs p with
    | Fail e => [perror fs p e]
    | Ok st => [Stdout (print_entry cfg fs name st (resolve_link fs p (st_mode st)))]
    end.

(** The node one entry contributes to the queue, if any. *)
Definition entry_node (prefix : string) (d : Z) (name : string) : list dir_path :=
  if hidden (filter cfg) name then []
  else
    let p := buffer_path fs prefix name in
    match fs_lstat fs p with
    | Fail _ => []
    | Ok st =>
        if recursive cfg && S_ISDIR (st_mode st) && negb (dot_or_dotdot name)
        then [new_dir_path p (int_wrap (d + 1))]
        else []
    end.

(** The base path leaves no room for a separator and a name. *)
Definition too_long (base : dir_path) : bool :=
  strlen (path base) >=? PATH_MAX - 1.

(** Everything listing [base] writes, in order. *)
Definition listing (base : dir_path) : list event :=
  match opendir fs (path base) with
  | Fail e => [perror fs (path base) e]
  | Ok ents =>
      if too_long base then [Stderr ("too long path" ++ nl)]
      else flat_map (entry_events (path_prefix (path base))) ents
  end.

(** The nodes listing [base] puts in the queue, in order. *)
Definition inserted (base : dir_path) : list dir_path :=
  match opendir fs (path base) with
  | Fail _ => []
  | Ok ents =>
      if too_long base then []
      else flat_map (entry_node (path_prefix (path base)) (depth base)) ents
  end.

(** The directory streams listing [base] leaves open. *)
Definition left_open (base : dir_path) : list string :=
  match opendir fs (path base) with
  | Fail _ => []
  | Ok _ => if too_long base then [path base] else []
  end.

(** The entries read from [base] when it is listed. *)
Definition entries (base : dir_path) : list string :=
  match opendir fs (path base) with
  | Fail _ => []
  | Ok ents => if too_long base then [] else ents
  end.

(** An entry is a subdirectory to descend into: it is visible, its metadata
    (not following links) says directory, and it is neither [.] nor [..]. *)
Definition is_subdir (prefix name : string) : bool :=
  negb (hidden (filter cfg) name)
  && match fs_lstat fs (entry_path prefix name) with
     | Ok st => S_ISDIR (st_mode st)
     | Fail _ => false
     end
  && negb (dot_or_dotdot name).

(** The subdirectories of [base], one level below it, in the order their
    entries are read. *)
Definition subdirs (base : dir_path) : list dir_path :=
  map (fun name => {| path := entry_path (path_prefix (path base)) name;
                      depth := depth base + 1 |})
      (List.filter (is_subdir (path_prefix (path base))) (entries base)).

(** The line of an entry up to its name and indicator. *)
Definition line_start (name : string) (st : stat_t) (ok : bool) : string :=
  (if long_format cfg then long_fields fs (half_year_ago cfg) st else "")
  ++ (if color cfg then print_name_with_color name (st_mode st) ok else name)
  ++ (if classify cfg then print_type_indicator (st_mode st) else "").

(** The link target as it is shown. *)
Definition shown_target (li : link_info) : string :=
  if color cfg
  then print_name_with_color (link li) (link_mode li) (link_ok li)
  else link li.

(** Following the link fails. *)
Definition dangling (p : string) : bool :=
  match fs_stat fs p with
  | Ok _ => false
  | Fail _ => true
  end.

(** The header of a directory below the root. *)
Definition heading (d : dir_path) : list event :=
  if 0 <? depth d then [header d] else [].

(** The world after more output and more open streams. *)
Definition extend (w : world) (evs : list event) (opened : list string) : world :=
  {| trace := trace w ++ evs; open_dirs := opened ++ open_dirs w |}.

(** The queue [q] is exhausted after exactly [n] iterations of the driver. *)
Fixpoint finishes (n : nat) (q : list dir_path) : Prop :=
  match n, q with
  | O, [] => True
  | S k, head :: next => finishes k (inserted head ++ next)
  | _, _ => False
  end.

(** What [n] iterations of the driver write, starting with the queue [q]. *)
Definition traversal (n : nat) (q : list dir_path) : list event :=
  trace (sys (run cfg fs n {| queue := q; sys := no_world |})).

(** The streams [n] iterations of the driver leave open. *)
Definition leaks (n : nat) (q : list dir_path) : list string :=
  open_dirs (sys (run cfg fs n {| queue := q; sys := no_world |})).

End PerEntry.

(** The depth of a node is an [int] that [base->depth + 1] does not
    overflow. *)
Definition depth_ok (d : dir_path) : Prop := 0 <= depth d < INT_MAX.

(** No directory has an entry with an empty name, as [readdir] guarantees. *)
Definition names_nonempty (fs : filesys) : Prop :=
  forall p ents, fs_opendir fs p = Ok ents -> Forall (fun name => name <> "") ents.

(** A level of depth costs at least one byte of the path, and a path has at
    most [PATH_MAX + 1] bytes. *)
Definition depth_within_path (d : dir_path) : Prop :=
  0 <= depth d <= strlen (path d) /\ strlen (path d) <= PATH_MAX + 1.

End Listing.

Import Listing.

(** ** Sample platforms *)

Module Demo.

Definition assoc {A : Type} (tbl : list (string * A)) (p : string) : option A :=
  match List.find (fun kv => String.eqb (fst kv) p) tbl with
  | Some kv => Some (snd kv)
  | None => None
  end.

Definition EACCES : Z := 13.

Definition mk_stat (mode : Z) : stat_t :=
  {| st_mode := mode; st_nlink := 1; st_uid := 0; st_gid := 0;
     st_rdev := 0; st_size := 42; st_mtime := 1000 |}.

Definition dir_mode : Z := 16877.   (* 040755 *)
Definition reg_mode : Z := 33188.   (* 0100644 *)
Definition lnk_mode : Z := 41471.   (* 0120777 *)

(** A small tree:
<<
  root/  .  ..  a/  f  gone (no metadata)  b/  l -> a  .hid
  root/a/  .  ..  x/  dangling -> nowhere (broken)  mute (target unreadable)
  root/a/x/  .  ..
  root/b/  .  ..  locked/ (cannot be opened)
>> *)
Definition dirs : list (string * sys_result (list string)) :=
  [("root", Ok ["."; ".."; "a"; "f"; "gone"; "b"; "l"; ".hid"]);
   ("root/a", Ok ["."; ".."; "x"; "dangling"; "mute"]);
   ("root/a/x", Ok ["."; ".."]);
   ("root/b", Ok ["."; ".."; "locked"]);
   ("root/b/locked", Fail EACCES)].

Definition nodes : list (string * Z) :=
  [("root/.", dir_mode); ("root/..", dir_mode); ("root/a", dir_mode);
   ("root/f", reg_mode); ("root/b", dir_mode); ("root/l", lnk_mode);
   ("root/.hid", reg_mode);
   ("root/a/.", dir_mode); ("root/a/..", dir_mode); ("root/a/x", dir_mode);
   ("root/a/dangling", lnk_mode); ("root/a/mute", lnk_mode);
   ("root/a/x/.", dir_mode); ("root/a/x/..", dir_mode);
   ("root/b/.", dir_mode); ("root/b/..", dir_mode);
   ("root/b/locked", dir_mode)].

(** Where following the link changes the answer. *)
Definition followed : list (string * sys_result Z) :=
  [("root/l", Ok dir_mode);
   ("root/a/dangling", Fail ENOENT);
   ("root/a/mute", Ok reg_mode)].

Definition targets : list (string * sys_result string) :=
  [("root/l", Ok "a");
   ("root/a/dangling", Ok "nowhere");
   ("root/a/mute", Fail EACCES)].

Definition lstat (p : string) : sys_result stat_t :=
  match assoc nodes p with
  | Some mode => Ok (mk_stat mode)
  | None => Fail ENOENT
  end.

Definition tree : filesys :=
  {| fs_opendir := fun p =>
       match assoc dirs p with Some r => r | None => Fail ENOENT end;
     sys_lstat := lstat;
     fs_stat := fun p =>
       match assoc followed p with
       | Some (Ok mode) => Ok (mk_stat mode)
       | Some (Fail e) => Fail e
       | None => lstat p
       end;
     fs_readlink := fun p =>
       match assoc targets p with Some r => r | None => Fail 22 end;
     getpwuid := fun uid => if uid =? 0 then Some "root" else None;
     getgrgid := fun gid => if gid =? 0 then Some "root" else None;
     strerror := fun e =>
       if e =? ENOENT then "No such file or directory"
       else if e =? EACCES then "Permission denied"
       else if e =? ENAMETOOLONG then "File name too long"
       else "Unknown error";
     strftime_local := fun fmt _ => fmt;
     past_buffer := fun _ => "" |}.

Definition opts (r l : bool) : config :=
  {| filter := FILTER_DEFAULT; color := false; classify := false;
     long_format := l; half_year_ago := 0; recursive := r |}.

Fixpoint slashes (n : nat) : string :=
  match n with
  | O => EmptyString
  | S k => String "/"%char (slashes k)
  end.

(** A path of [PATH_MAX - 1] bytes that names a directory: [////...//tmp]. *)
Definition long_path : string := slashes 4092 ++ "tmp".

(** A platform where [long_path] is a directory holding one file. *)
Definition deep : filesys :=
  {| fs_opendir := fun p =>
       if String.eqb p long_path then Ok ["file"] else Fail ENOENT;
     sys_lstat := fun _ => Ok (mk_stat reg_mode);
     fs_stat := fun _ => Ok (mk_stat reg_mode);
     fs_readlink := fun _ => Fail 22;
     getpwuid := fun _ => None;
     getgrgid := fun _ => None;
     strerror := fun e =>
       if e =? ENOENT then "No such file or directory" else "Unknown error";
     strftime_local := fun fmt _ => fmt;
     past_buffer := fun _ => "" |}.

End Demo.

(** ** [parse_cmd_args] and [main] *)

Module Cli.

(** What the C library answers while the command line is parsed.  The
    trace of the program records what the functions of [ls11.c] write;
    the diagnostics [getopt_long] writes itself are not part of it. *)
Record libc := {
  (** The values [getopt_long] returns, call after call, before -1. *)
  getopt_long : list Z;
  (** [optind] once [getopt_long] has returned -1. *)
  optind : Z;
  (** [argv] as [getopt_long] leaves it. *)
  argv : list string;
  (** [isatty(STDOUT_FILENO)] *)
  isatty : bool;
  (** [time(NULL)] at its first, second, ... call. *)
  time_at : nat -> Z
}.

(** A character as the [int] that [getopt_long] returns. *)
Definition opt_of (c : ascii) : Z := Z.of_N (N_of_ascii c).

(** [#define HALF_YEAR_SECOND (365 * 24 * 60 * 60 / 2)] *)
Definition HALF_YEAR_SECOND : Z := 365 * 24 * 60 * 60 / 2.

Definition EXIT_SUCCESS : Z := 0.
Definition EXIT_FAILURE : Z := 1.

(** The globals as initialised at lines 67-87. *)
Definition globals0 : config :=
  {| filter := FILTER_DEFAULT; color := false; classify := false;
     long_format := false; half_year_ago := 0; recursive := false |}.

Definition set_filter (f : filter_t) (g : config) : config :=
  {| filter := f; color := color g; classify := classify g;
     long_format := long_format g; half_year_ago := half_year_ago g;
     recursive := recursive g |}.

Definition set_color (g : config) : config :=
  {| filter := filter g; color := true; classify := classify g;
     long_format := long_format g; half_year_ago := half_year_ago g;
     recursive := recursive g |}.

Definition set_classify (g : config) : config :=
  {| filter := filter g; color := color g; classify := true;
     long_format := long_format g; half_year_ago := half_year_ago g;
     recursive := recursive g |}.

Definition set_long_format (t : Z) (g : config) : config :=
  {| filter := filter g; color := color g; classify := classify g;
     long_format := true; half_year_ago := t;
     recursive := recursive g |}.

Definition set_recursive (g : config) : config :=
  {| filter := filter g; color := color g; classify := classify g;
     long_format := long_format g; half_year_ago := half_year_ago g;
     recursive := true |}.

(** The [while ((opt = getopt_long(...)) != -1)] loop over the values still
    to come: the globals, the number of calls of [time] so far, and whether
    the loop ran to its end ([false]: the [default] case returned). *)
Fixpoint parse_loop (env : libc) (opts : list Z) (g : config) (calls : nat)
    : config * nat * bool :=
  match opts with
  | [] => (g, calls, true)
  | opt :: more =>
      if opt =? opt_of "a" then parse_loop env more (set_filter FILTER_ALL g) calls
      else if opt =? opt_of "A" then parse_loop env more (set_filter FILTER_ALMOST g) calls
      else if opt =? opt_of "C" then
        parse_loop env more (if isatty env then set_color g else g) calls
      else if opt =? opt_of "F" then parse_loop env more (set_classify g) calls
      else if opt =? opt_of "l" then
        parse_loop env more
          (set_long_format (long_wrap (time_at env calls - HALF_YEAR_SECOND)) g)
          (S calls)
      else if opt =? opt_of "R" then parse_loop env more (set_recursive g) calls
      else (g, calls, false)
  end.

(** [parse_cmd_args(argc, argv)]: the globals when it returns, and the path
    it returns ([None] for [NULL]). *)
Definition parse_cmd_args (env : libc) : config * option string :=
  let '(g, _, completed) := parse_loop env (getopt_long env) globals0 0 in
  if completed then
    (g, Some (if Z.of_nat (List.length (argv env)) >? optind env
              then nth (Z.to_nat (optind env)) (argv env) ""
              else "./"))
  else (g, None).

(** [main], for at most [n] iterations of its loop: the exit status and the
    world when it returns, [None] when the loop is still running. *)
Definition main (env : libc) (fs : filesys) (n : nat) : option (Z * world) :=
  match parse_cmd_args env with
  | (_, None) => Some (EXIT_FAILURE, no_world)
  | (cfg, Some p) =>
      let s := run cfg fs n (main_init p) in
      match queue s with
      | [] => Some (EXIT_SUCCESS, sys s)
      | _ :: _ => None
      end
  end.

(** *** The command line, in the words of its options *)

(** The option letter [c] was given. *)
Definition given (c : ascii) (opts : list Z) : bool :=
  existsb (Z.eqb (opt_of c)) opts.

Definition letters : list ascii := ["a"; "A"; "C"; "F"; "l"; "R"]%char.

(** The value is one of the option letters of the program. *)
Definition recognised (opt : Z) : bool :=
  existsb (fun c => opt =? opt_of c) letters.

Definition is_filter_opt (opt : Z) : bool :=
  (opt =? opt_of "a") || (opt =? opt_of "A").

(** The policy selected by the last of [-a] and [-A]. *)
Definition filter_choice (opts : list Z) : filter_t :=
  match rev (List.filter is_filter_opt opts) with
  | [] => FILTER_DEFAULT
  | opt :: _ => if opt =? opt_of "a" then FILTER_ALL else FILTER_ALMOST
  end.

(** How often [-l] was given. *)
Definition count_l (opts : list Z) : nat :=
  List.length (List.filter (Z.eqb (opt_of "l")) opts).

(** A sample command line: [ls11 -l -a -R -A -l dir other]. *)
Definition sample : libc :=
  {| getopt_long := map opt_of ["l"; "a"; "R"; "A"; "l"]%char;
     optind := 6;
     argv := ["ls11"; "-l"; "-a"; "-R"; "-A"; "-l"; "dir"; "other"];
     isatty := false;
     time_at := fun k => 1700000000 + Z.of_nat k |}.

(** [ls11 -R -x root]: [getopt_long] answers ['?'] for [-x]. *)
Definition with_unknown : libc :=
  {| getopt_long := [opt_of "R"; opt_of "?"];
     optind := 3;
     argv := ["ls11"; "-R"; "-x"; "root"];
     isatty := true;
     time_at := fun _ => 1700000000 |}.

(** [ls11 -R root] *)
Definition recurse_root : libc :=
  {| getopt_long := [opt_of "R"];
     optind := 2;
     argv := ["ls11"; "-R"; "root"];
     isatty := false;
     time_at := fun _ => 1700000000 |}.

End Cli.

(** ** More of the specification's vocabulary *)

Module Spec2.

Import Spec.

Definition black_on_green : style :=
  {| bold := false; fg := Some Black; bg := Some Green |}.
Definition blue_on_green : style :=
  {| bold := false; fg := Some Blue; bg := Some Green |}.
Definition white_on_blue : style :=
  {| bold := false; fg := Some White; bg := Some Blue |}.
Definition bold_blue : style := {| bold := true; fg := Some Blue; bg := None |}.
Definition bold_cyan : style := {| bold := true; fg := Some Cyan; bg := None |}.
Definition yellow_fg : style := {| bold := false; fg := Some Yellow; bg := None |}.
Definition bold_magenta : style := {| bold := true; fg := Some Magenta; bg := None |}.
Definition bold_yellow : style := {| bold := true; fg := Some Yellow; bg := None |}.

Definition other_writable (mode : Z) : bool := Z.testbit mode 1.

(** The style of a directory. *)
Definition directory_style (mode : Z) : style :=
  if sticky mode && other_writable mode then black_on_green
  else if other_writable mode then blue_on_green
  else if sticky mode then white_on_blue
  else bold_blue.

(** The style of a name by its type, for a link that resolves; [None] where
    the name is written in the style the terminal is in. *)
Definition style_by_type (mode : Z) : option style :=
  match type_of mode with
  | Regular => Some (regular_style white_on_red mode)
  | Directory => Some (directory_style mode)
  | Symlink => Some bold_cyan
  | Fifo => Some yellow_fg
  | Socket => Some bold_magenta
  | Block | Char => Some bold_yellow
  | Unknown => None
  end.

(** The glyph of classify mode. *)
Definition indicator (mode : Z) : string :=
  match type_of mode with
  | Regular => if any_exec mode then "*" else ""
  | Directory => "/"
  | Symlink => "@"
  | Fifo => "|"
  | Socket => "="
  | Block | Char | Unknown => ""
  end.

(** [s1] is a beginning of [s2]. *)
Definition starts (s1 s2 : string) : Prop := exists rest, s2 = s1 ++ rest.

(** What the owner or group column shows: the name when the id has one,
    the id as [%d] prints it otherwise. *)
Definition id_field (name : option string) (id : Z) : string :=
  match name with
  | Some n => n
  | None => Z_to_string (int_wrap id)
  end.

Definition is_stdout (e : event) : bool :=
  match e with Stdout _ => true | Stderr _ => false end.

Definition is_stderr (e : event) : bool :=
  match e with Stdout _ => false | Stderr _ => true end.

End Spec2.

(** * Properties *)

(** ** Bit tests *)

Lemma has_pow2 (m k : Z) : 0 <= k -> has m (2 ^ k) = Z.testbit m k.
Proof.
  intros Hk. unfold has.
  destruct (Z.testbit m k) eqn:E.
  - apply negb_true_iff, Z.eqb_neq. intros H0.
    assert (Hb : Z.testbit (Z.land m (2 ^ k)) k = true)
      by (rewrite Z.land_spec, E, Z.pow2_bits_true; auto).
    rewrite H0, Z.bits_0 in Hb. discriminate.
  - apply negb_false_iff, Z.eqb_eq, Z.bits_inj'. intros n Hn.
    rewrite Z.land_spec, Z.bits_0, Z.pow2_bits_eqb by assumption.
    destruct (Z.eqb_spec k n) as [->|]; [rewrite E|]; auto using andb_false_r.
Qed.

Lemma land_type_bits (m : Z) :
  Z.land m S_IFMT = Z.shiftl (Z.land (Z.shiftr m 12) 15) 12.
Proof.
  apply Z.bits_inj'. intros n Hn.
  change S_IFMT with (Z.shiftl 15 12).
  rewrite Z.land_spec.
  destruct (Z.lt_ge_cases n 12) as [Hlt|Hge].
  - rewrite !Z.shiftl_spec_low by assumption. apply andb_false_r.
  - rewrite !Z.shiftl_spec by assumption.
    rewrite Z.land_spec, Z.shiftr_spec by lia.
    replace (n - 12 + 12) with n by lia. reflexivity.
Qed.

Lemma S_ISTYPE_bits (m c : Z) :
  S_ISTYPE m (Z.shiftl c 12) = (Z.land (Z.shiftr m 12) 15 =? c).
Proof.
  unfold S_ISTYPE. rewrite land_type_bits, !Z.shiftl_mul_pow2 by lia.
  destruct (Z.eqb_spec (Z.land (Z.shiftr m 12) 15) c) as [->|Hne].
  - apply Z.eqb_refl.
  - apply Z.eqb_neq. lia.
Qed.

Lemma type_tests (m : Z) :
  let t := Z.land (Z.shiftr m 12) 15 in
  S_ISBLK m = (t =? 6) /\ S_ISCHR m = (t =? 2) /\ S_ISDIR m = (t =? 4) /\
  S_ISREG m = (t =? 8) /\ S_ISFIFO m = (t =? 1) /\ S_ISLNK m = (t =? 10) /\
  S_ISSOCK m = (t =? 12).
Proof.
  repeat split;
    [ change (S_ISBLK m) with (S_ISTYPE m (Z.shiftl 6 12))
    | change (S_ISCHR m) with (S_ISTYPE m (Z.shiftl 2 12))
    | change (S_ISDIR m) with (S_ISTYPE m (Z.shiftl 4 12))
    | change (S_ISREG m) with (S_ISTYPE m (Z.shiftl 8 12))
    | change (S_ISFIFO m) with (S_ISTYPE m (Z.shiftl 1 12))
    | change (S_ISLNK m) with (S_ISTYPE m (Z.shiftl 10 12))
    | change (S_ISSOCK m) with (S_ISTYPE m (Z.shiftl 12 12)) ];
    apply S_ISTYPE_bits.
Qed.

(** The permission masks are the single bits 0 to 11. *)
Lemma perm_bits (m : Z) :
  has m S_IXOTH = Z.testbit m 0 /\ has m S_IWOTH = Z.testbit m 1 /\
  has m S_IROTH = Z.testbit m 2 /\ has m S_IXGRP = Z.testbit m 3 /\
  has m S_IWGRP = Z.testbit m 4 /\ has m S_IRGRP = Z.testbit m 5 /\
  has m S_IXUSR = Z.testbit m 6 /\ has m S_IWUSR = Z.testbit m 7 /\
  has m S_IRUSR = Z.testbit m 8 /\ has m S_ISVTX = Z.testbit m 9 /\
  has m S_ISGID = Z.testbit m 10 /\ has m S_ISUID = Z.testbit m 11.
Proof.
  repeat split;
    [ apply (has_pow2 m 0) | apply (has_pow2 m 1) | apply (has_pow2 m 2)
    | apply (has_pow2 m 3) | apply (has_pow2 m 4) | apply (has_pow2 m 5)
    | apply (has_pow2 m 6) | apply (has_pow2 m 7) | apply (has_pow2 m 8)
    | apply (has_pow2 m 9) | apply (has_pow2 m 10) | apply (has_pow2 m 11) ];
    lia.
Qed.

Lemma has_lor (m a b : Z) : has m (Z.lor a b) = has m a || has m b.
Proof.
  unfold has. rewrite Z.land_lor_distr_r.
  destruct (Z.eqb_spec (Z.land m a) 0) as [Ha|Ha];
    destruct (Z.eqb_spec (Z.land m b) 0) as [Hb|Hb]; simpl.
  - rewrite Ha, Hb. reflexivity.
  - apply negb_true_iff, Z.eqb_neq. rewrite Z.lor_eq_0_iff. tauto.
  - apply negb_true_iff, Z.eqb_neq. rewrite Z.lor_eq_0_iff. tauto.
  - apply negb_true_iff, Z.eqb_neq. rewrite Z.lor_eq_0_iff. tauto.
Qed.

Lemma has_IXUGO (m : Z) : has m S_IXUGO = Spec.any_exec m.
Proof.
  unfold S_IXUGO, Spec.any_exec. rewrite !has_lor.
  destruct (perm_bits m) as (H0 & _ & _ & H3 & _ & _ & H6 & _).
  rewrite H0, H3, H6, orb_assoc. reflexivity.
Qed.

(** ** The permission string *)

(** C3. For every mode, [get_mode_string] yields exactly ten characters: the
    glyph of the file type, one of [b c d - p l s ?], then the slots [rwx] of
    owner, group and others, where setuid and setgid put [s] (execute bit
    set) or [S] (not set) in the execute slot of owner and group, the sticky
    bit puts [t] or [T] in that of others, and a slot without its special bit
    shows [x] or [-]. *)
Theorem get_mode_string_chars (mode : mode_t) :
  list_ascii_of_string (get_mode_string mode) = Spec.mode_chars mode
  /\ String.length (get_mode_string mode) = 10%nat
  /\ In (char_at (get_mode_string mode) 0) Spec.glyphs.
Proof.
  destruct (perm_bits mode)
    as (H0 & H1 & H2 & H3 & H4 & H5 & H6 & H7 & H8 & H9 & H10 & H11).
  destruct (type_tests mode) as (Tb & Tc & Td & Tr & Tp & Tl & Ts).
  unfold get_mode_string.
  rewrite H0, H1, H2, H3, H4, H5, H6, H7, H8, H9, H10, H11.
  rewrite Tb, Tc, Td, Tr, Tp, Tl, Ts.
  split; [|split].
  - unfold Spec.mode_chars, Spec.type_of, Spec.rwx, Spec.setuid, Spec.setgid,
      Spec.sticky, Spec.rw_slot, Spec.exec_slot.
    cbn [list_ascii_of_string app Z.add Pos.add Pos.succ].
    f_equal.
    destruct (_ =? 6); [reflexivity|].
    destruct (_ =? 2); [reflexivity|].
    destruct (_ =? 4); [reflexivity|].
    destruct (_ =? 8); [reflexivity|].
    destruct (_ =? 1); [reflexivity|].
    destruct (_ =? 10); [reflexivity|].
    destruct (_ =? 12); reflexivity.
  - reflexivity.
  - cbn [char_at String.get]. unfold Spec.glyphs.
    destruct (_ =? 6); [simpl; tauto|].
    destruct (_ =? 2); [simpl; tauto|].
    destruct (_ =? 4); [simpl; tauto|].
    destruct (_ =? 8); [simpl; tauto|].
    destruct (_ =? 1); [simpl; tauto|].
    destruct (_ =? 10); [simpl; tauto|].
    destruct (_ =? 12); simpl; tauto.
Qed.

Example mode_string_directory : get_mode_string 16877 = "drwxr-xr-x".
Proof. reflexivity. Qed.

Example mode_string_setuid : get_mode_string 35309 = "-rwsr-xr-x".
Proof. reflexivity. Qed.

Example mode_string_setgid_without_exec : get_mode_string 34212 = "-rw-r-Sr--".
Proof. reflexivity. Qed.

Example mode_string_sticky : get_mode_string 17407 = "drwxrwxrwt".
Proof. reflexivity. Qed.

Example mode_string_sticky_without_exec : get_mode_string 17406 = "drwxrwxrwT".
Proof. reflexivity. Qed.

Example mode_string_unknown_type : get_mode_string 0 = "?---------".
Proof. reflexivity. Qed.

(** ** The name filter *)

Lemma ascii_is_true (c d : ascii) : ascii_is c d = true <-> c = d.
Proof. apply Ascii.eqb_eq. Qed.

Lemma dot_or_dotdot_spec (name : string) :
  c_string name ->
  dot_or_dotdot name = true <-> name = "." \/ name = "..".
Proof.
  unfold dot_or_dotdot, char_at.
  destruct name as [|c0 [|c1 [|c2 r]]]; cbn [String.get c_string].
  - intros _. split; [discriminate | intros [?|?]; discriminate].
  - intros [_ _]. destruct (ascii_is c0 ".") eqn:E0; cbn.
    + apply ascii_is_true in E0. subst c0. split; auto.
    + split; [discriminate|].
      intros [H|H]; inversion H; subst; discriminate.
  - intros (_ & N1 & _).
    destruct (ascii_is c0 ".") eqn:E0; cbn;
      [destruct (ascii_is c1 ".") eqn:E1; cbn|].
    + apply ascii_is_true in E0, E1. subst. split; auto.
    + split.
      * intros H. apply ascii_is_true in H. contradiction.
      * intros [H|H]; inversion H; subst; discriminate.
    + split; [discriminate|].
      intros [H|H]; inversion H; subst; discriminate.
  - intros (_ & N1 & N2 & _).
    destruct (ascii_is c0 ".") eqn:E0; cbn;
      [destruct (ascii_is c1 ".") eqn:E1; cbn|].
    + split.
      * intros H. apply ascii_is_true in H. contradiction.
      * intros [H|H]; inversion H.
    + split.
      * intros H. apply ascii_is_true in H. contradiction.
      * intros [H|H]; inversion H.
    + split; [discriminate|].
      intros [H|H]; inversion H.
Qed.

Lemma hidden_unfold (f : filter_t) (name : string) :
  hidden f name =
  match f with
  | FILTER_DEFAULT => ascii_is (char_at name 0) "."
  | FILTER_ALMOST => dot_or_dotdot name
  | FILTER_ALL => false
  end.
Proof.
  unfold hidden, dot_or_dotdot. destruct f; cbn.
  - apply andb_true_r.
  - reflexivity.
  - reflexivity.
Qed.

(** C2. For every entry name and filter policy: under Default the name is
    hidden exactly when it starts with [.]; under Almost exactly when it is
    [.] or [..], so that [.hidden], [..name] and [...] are visible; under All
    no name is hidden, so that [.] and [..] are listed. *)
Theorem hidden_decision (f : filter_t) (name : string) :
  c_string name ->
  (hidden f name = true <->
   match f with
   | FILTER_DEFAULT => exists rest, name = String "." rest
   | FILTER_ALMOST => name = "." \/ name = ".."
   | FILTER_ALL => False
   end)
  /\ hidden FILTER_ALMOST ".hidden" = false
  /\ hidden FILTER_ALMOST "..name" = false
  /\ hidden FILTER_ALMOST "..." = false
  /\ hidden FILTER_ALL "." = false
  /\ hidden FILTER_ALL ".." = false.
Proof.
  intros Hc. split; [|repeat split; reflexivity].
  rewrite hidden_unfold. destruct f.
  - unfold char_at. destruct name as [|c r]; cbn [String.get].
    + split; [discriminate | intros [? ?]; discriminate].
    + rewrite ascii_is_true. split.
      * intros ->. eauto.
      * intros [rest H]. inversion H. reflexivity.
  - apply dot_or_dotdot_spec, Hc.
  - split; [discriminate | contradiction].
Qed.

Lemma hidden_decision_witness :
  c_string ".git"
  /\ (hidden FILTER_DEFAULT ".git" = true <-> exists rest, ".git" = String "." rest).
Proof.
  assert (Hc : c_string ".git") by (cbn; repeat split; discriminate).
  split; [exact Hc|].
  exact (proj1 (hidden_decision FILTER_DEFAULT ".git" Hc)).
Defined.

(** A hidden entry is skipped: no output, no diagnostic, no queue node. *)
Lemma hidden_entry_is_skipped (cfg : config) (fs : filesys) (prefix : string)
    (d : Z) (name : string) (more : list string) (c : cursor) (w : world) :
  hidden (filter cfg) name = true ->
  read_loop cfg fs prefix d (name :: more) c w = read_loop cfg fs prefix d more c w.
Proof. intros H. cbn [read_loop]. rewrite H. reflexivity. Qed.

(** ** The time format *)

Lemma long_wrap_small (z : Z) : in_time_t z -> long_wrap z = z.
Proof.
  unfold in_time_t, long_wrap. intros H.
  rewrite Z.mod_small; lia.
Qed.

(** C4. For every entry mtime, [get_time_string] formats with the short
    format [MM/DD HH:MM] exactly when [entry_mtime - half_year_ago > 0], and
    with the long format [MM/DD  YYYY] otherwise; an mtime of
    [half_year_ago + 1] selects the short format, an mtime of [half_year_ago]
    or earlier the long one.  The times are [time_t] values whose difference
    is one too: C gives the subtraction no meaning otherwise. *)
Theorem time_format_selection (fs : filesys) (hya mtime : Z) :
  in_time_t hya -> in_time_t mtime -> in_time_t (mtime - hya) ->
  (time_format hya mtime = short_format <-> mtime - hya > 0)
  /\ (time_format hya mtime = long_year_format <-> mtime - hya <= 0)
  /\ (mtime = hya + 1 -> time_format hya mtime = short_format)
  /\ (mtime <= hya -> time_format hya mtime = long_year_format)
  /\ get_time_string fs hya mtime = strftime_local fs (time_format hya mtime) mtime.
Proof.
  intros _ _ Hd.
  assert (Hf : time_format hya mtime
               = if mtime - hya >? 0 then short_format else long_year_format).
  { unfold time_format. rewrite (long_wrap_small _ Hd). reflexivity. }
  repeat split; try reflexivity; rewrite Hf;
    destruct (Z.gtb_spec (mtime - hya) 0); intros;
    try reflexivity; try lia;
    unfold long_year_format, short_format in *; discriminate.
Qed.

Lemma time_format_selection_witness :
  time_format 1000 1001 = short_format /\ time_format 1000 1000 = long_year_format.
Proof.
  assert (H1 : in_time_t 1000) by (unfold in_time_t; lia).
  assert (H2 : in_time_t 1001) by (unfold in_time_t; lia).
  assert (H3 : in_time_t (1001 - 1000)) by (unfold in_time_t; lia).
  assert (H4 : in_time_t (1000 - 1000)) by (unfold in_time_t; lia).
  pose (fs := {| fs_opendir := fun _ => Fail 0; sys_lstat := fun _ => Fail 0;
                 fs_stat := fun _ => Fail 0; fs_readlink := fun _ => Fail 0;
                 getpwuid := fun _ => None; getgrgid := fun _ => None;
                 strerror := fun _ => ""; strftime_local := fun _ _ => "";
                 past_buffer := fun _ => "" |}).
  split.
  - apply (time_format_selection fs 1000 1001 H1 H2 H3). reflexivity.
  - apply (time_format_selection fs 1000 1000 H1 H1 H4). lia.
Defined.

(** ** Colors *)

Lemma type_of_regular (mode : Z) :
  Spec.type_of mode = Spec.Regular -> S_ISREG mode = true.
Proof.
  destruct (type_tests mode) as (_ & _ & _ & Tr & _). rewrite Tr.
  unfold Spec.type_of.
  destruct (_ =? 6); [discriminate|].
  destruct (_ =? 2); [discriminate|].
  destruct (_ =? 4); [discriminate|].
  destruct (_ =? 8); [reflexivity|].
  destruct (_ =? 1); [discriminate|].
  destruct (_ =? 10); [discriminate|].
  destruct (_ =? 12); discriminate.
Qed.

Lemma color_escape_regular (mode : Z) :
  S_ISREG mode = true ->
  Spec.style_of (color_escape mode true)
  = Some (Spec.regular_style Spec.white_on_red mode).
Proof.
  intros Hr. unfold color_escape, Spec.regular_style. rewrite Hr. cbn [negb].
  destruct (perm_bits mode) as (_ & _ & _ & _ & _ & _ & _ & _ & _ & _ & H10 & H11).
  rewrite H10, H11, has_IXUGO.
  unfold Spec.setuid, Spec.setgid.
  destruct (Z.testbit mode 11); [reflexivity|].
  destruct (Z.testbit mode 10); [reflexivity|].
  destruct (Spec.any_exec mode); reflexivity.
Qed.

(** C5, as the code has it.  In color mode, for every mode and [link_ok]: a
    broken link ([link_ok] false) is written in red foreground whatever its
    type, this test coming first; a regular file is written white on a red
    background if setuid, else black on a yellow background if setgid, else
    bold green if any execute bit is set, else in the default (reset) style.
    The name follows the escape sequence and a reset follows the name. *)
Theorem color_of_regular_file (name : string) (mode : mode_t) :
  (print_name_with_color name mode false
     = color_escape mode false ++ name ++ esc ++ "[0m"
   /\ Spec.style_of (color_escape mode false) = Some Spec.red_fg)
  /\ (Spec.type_of mode = Spec.Regular ->
      print_name_with_color name mode true
        = color_escape mode true ++ name ++ esc ++ "[0m"
      /\ Spec.style_of (color_escape mode true)
         = Some (Spec.regular_style Spec.white_on_red mode)).
Proof.
  split; [split; reflexivity|].
  intros Ht. split; [reflexivity|].
  apply color_escape_regular, type_of_regular, Ht.
Qed.

Lemma color_of_regular_file_witness :
  Spec.style_of (color_escape 33261 true) = Some Spec.bold_green.
Proof.
  apply (color_of_regular_file "a.out" 33261). reflexivity.
Defined.

(** C5 as the specification words it fails: a setuid regular file (mode
    0104755) is written white on red, not bold red on white. *)
Lemma setuid_file_not_bold_red_on_white :
  Spec.type_of 35309 = Spec.Regular
  /\ Spec.setuid 35309 = true
  /\ color_escape 35309 true = esc ++ "[37;41m"
  /\ Spec.style_of (color_escape 35309 true)
     <> Some (Spec.regular_style Spec.bold_red_on_white 35309).
Proof.
  repeat split; try reflexivity. vm_compute. discriminate.
Qed.

(** ** Strings and paths *)

Lemma length_app_string (a b : string) :
  String.length (a ++ b) = (String.length a + String.length b)%nat.
Proof. induction a as [|c a IH]; cbn; [reflexivity | rewrite IH; reflexivity]. Qed.

Lemma strncpy_length (n : nat) (s : string) :
  (String.length (CStr.strncpy n s) <= n)%nat.
Proof.
  revert s. induction n as [|n IH]; intros [|c s]; cbn; try lia.
  specialize (IH s). lia.
Qed.

Lemma strncpy_fits (n : nat) (s : string) :
  (String.length s <= n)%nat -> CStr.strncpy n s = s.
Proof.
  revert s. induction n as [|n IH]; intros [|c s]; cbn; intros H;
    try reflexivity; try lia.
  rewrite IH by lia. reflexivity.
Qed.

Lemma strncpy_full (n : nat) (s : string) :
  (n <= String.length s)%nat -> String.length (CStr.strncpy n s) = n.
Proof.
  revert s. induction n as [|n IH]; intros s H; [reflexivity|].
  destruct s as [|c s]; cbn in *; [lia|]. rewrite IH by lia. reflexivity.
Qed.

Lemma entry_path_strlen (prefix name : string) :
  strlen (entry_path prefix name) = strlen prefix + strlen name.
Proof. unfold entry_path, strlen. rewrite length_app_string. lia. Qed.

(** A path that fits is in the buffer as it is. *)
Lemma buffer_path_fits (fs : filesys) (prefix name : string) :
  strlen prefix + strlen name < PATH_MAX ->
  buffer_path fs prefix name = entry_path prefix name.
Proof.
  intros H. unfold buffer_path.
  destruct (Z.ltb_spec (strlen prefix + strlen name) PATH_MAX); [reflexivity | lia].
Qed.

(** A path that does not fit leaves [PATH_MAX] bytes or more to read. *)
Lemma buffer_path_long (fs : filesys) (prefix name : string) :
  PATH_MAX <= strlen prefix + strlen name ->
  PATH_MAX <= strlen (buffer_path fs prefix name).
Proof.
  intros H. unfold buffer_path.
  destruct (Z.ltb_spec (strlen prefix + strlen name) PATH_MAX); [lia|].
  unfold strlen, PATH_MAX in *. rewrite !length_app_string.
  destruct (Z.le_gt_cases (Z.of_nat (String.length prefix)) 4096) as [Hp|Hp].
  - rewrite strncpy_full by lia. lia.
  - lia.
Qed.

Lemma lstat_buffer_path (fs : filesys) (prefix name : string) :
  fs_lstat fs (buffer_path fs prefix name) = fs_lstat fs (entry_path prefix name).
Proof.
  destruct (Z.lt_ge_cases (strlen prefix + strlen name) PATH_MAX) as [Hfit|Hlong].
  - rewrite buffer_path_fits by assumption. reflexivity.
  - pose proof (buffer_path_long fs prefix name Hlong) as Hb.
    pose proof (entry_path_strlen prefix name) as He.
    unfold fs_lstat.
    destruct (Z.leb_spec PATH_MAX (strlen (buffer_path fs prefix name))); [|lia].
    destruct (Z.leb_spec PATH_MAX (strlen (entry_path prefix name))); [reflexivity | lia].
Qed.

(** [lstat] succeeds only on a path that fits the buffer. *)
Lemma lstat_ok_fits (fs : filesys) (prefix name : string) (st : stat_t) :
  fs_lstat fs (entry_path prefix name) = Ok st ->
  strlen prefix + strlen name < PATH_MAX.
Proof.
  unfold fs_lstat. rewrite entry_path_strlen.
  destruct (Z.leb_spec PATH_MAX (strlen prefix + strlen name)); [discriminate | lia].
Qed.

Lemma lstat_ok_buffer (fs : filesys) (prefix name : string) (st : stat_t) :
  fs_lstat fs (buffer_path fs prefix name) = Ok st ->
  buffer_path fs prefix name = entry_path prefix name
  /\ strlen prefix + strlen name < PATH_MAX.
Proof.
  intros H. rewrite lstat_buffer_path in H.
  pose proof (lstat_ok_fits fs prefix name st H) as Hfit.
  split; [apply buffer_path_fits, Hfit | exact Hfit].
Qed.

Lemma path_prefix_length (p : string) :
  strlen p <= strlen (path_prefix p) <= strlen p + 1.
Proof.
  unfold path_prefix, strlen.
  destruct (negb _); [rewrite length_app_string; cbn|]; lia.
Qed.

Lemma new_dir_path_entry (prefix name : string) (d : Z) :
  strlen prefix + strlen name < PATH_MAX ->
  new_dir_path (entry_path prefix name) d
  = {| path := entry_path prefix name; depth := d |}.
Proof.
  intros H. unfold new_dir_path. f_equal. apply strncpy_fits.
  pose proof (entry_path_strlen prefix name) as Hl.
  unfold strlen, PATH_MAX in *. lia.
Qed.

Lemma int_wrap_small (z : Z) : - 2 ^ 31 <= z <= INT_MAX -> int_wrap z = z.
Proof.
  unfold int_wrap, INT_MAX. intros H. rewrite Z.mod_small; lia.
Qed.

(** ** The loop of [list_dir], entry by entry *)

Section Lister.

Variable cfg : config.
Variable fs : filesys.

Lemma extend_nil (w : world) : extend w [] [] = w.
Proof. destruct w. unfold extend. cbn. rewrite app_nil_r. reflexivity. Qed.

Lemma extend_emit (e : event) (w : world) (evs : list event) (o : list string) :
  extend (emit e w) evs o = extend w (e :: evs) o.
Proof. unfold extend, emit. cbn. rewrite <- app_assoc. reflexivity. Qed.

Lemma extend_extend (w : world) (e1 e2 : list event) (o1 o2 : list string) :
  extend (extend w e1 o1) e2 o2 = extend w (e1 ++ e2) (o2 ++ o1).
Proof. unfold extend. cbn. rewrite !app_assoc. reflexivity. Qed.

Lemma cursor_insert (c : cursor) (n : dir_path) (l : list dir_path) :
  {| upto := rev l ++ upto (insert_after c n); after := after (insert_after c n) |}
  = {| upto := rev (n :: l) ++ upto c; after := after c |}.
Proof. cbn. rewrite <- app_assoc. reflexivity. Qed.

(** The loop handles the entries one by one: each adds its events to the
    trace and its node, if any, right after the last one inserted. *)
Lemma read_loop_spec (prefix : string) (d : Z) (ents : list string) :
  forall (c : cursor) (w : world),
    read_loop cfg fs prefix d ents c w
    = ({| upto := rev (flat_map (entry_node cfg fs prefix d) ents) ++ upto c;
          after := after c |},
       extend w (flat_map (entry_events cfg fs prefix) ents) []).
Proof.
  induction ents as [|name more IH]; intros c w.
  - cbn. rewrite extend_nil. destruct c; reflexivity.
  - cbn [read_loop flat_map]. unfold entry_node at 1, entry_events at 1.
    destruct (hidden (filter cfg) name); [apply IH|].
    destruct (fs_lstat fs (buffer_path fs prefix name)) as [st|e].
    + rewrite IH, extend_emit.
      destruct (recursive cfg && S_ISDIR (st_mode st)) eqn:Hrec;
        [destruct (negb (dot_or_dotdot name))|]; cbn [andb app];
        try reflexivity.
      rewrite cursor_insert. reflexivity.
    + rewrite IH, extend_emit. reflexivity.
Qed.

Lemma remove_first_head (p : string) (l : list string) :
  remove_first p (p :: l) = l.
Proof. cbn. rewrite String.eqb_refl. reflexivity. Qed.

(** [list_dir] leaves the list [base], the nodes of its entries, then what
    followed [base]; it adds its events to the trace; and it leaves open what
    [left_open] says. *)
Lemma list_dir_spec (base : dir_path) (next : list dir_path) (w : world) :
  list_dir cfg fs base next w
  = (base :: inserted cfg fs base ++ next,
     extend w (listing cfg fs base) (left_open fs base)).
Proof.
  unfold list_dir, inserted, listing, left_open, too_long.
  destruct (opendir fs (path base)) as [ents|e].
  - destruct (strlen (path base) >=? PATH_MAX - 1).
    + unfold extend, emit, dir_opened, cursor_list. reflexivity.
    + rewrite read_loop_spec. unfold cursor_list, closedir, extend, dir_opened.
      cbn [upto after trace open_dirs app].
      rewrite remove_first_head, rev_app_distr, rev_involutive.
      reflexivity.
  - unfold cursor_list, extend, emit, perror. reflexivity.
Qed.

(** One iteration of the driver, for a head of any depth. *)
Lemma main_step_spec (head : dir_path) (next : list dir_path) (w : world) :
  main_step cfg fs {| queue := head :: next; sys := w |}
  = Some {| queue := inserted cfg fs head ++ next;
            sys := extend w
                     ((if negb (depth head =? 0) then [header head] else [])
                      ++ listing cfg fs head)
                     (left_open fs head) |}.
Proof.
  unfold main_step. cbn [queue sys]. rewrite list_dir_spec. cbn [tl].
  destruct (negb (depth head =? 0)).
  - rewrite extend_emit. reflexivity.
  - reflexivity.
Qed.

End Lister.

(** ** The driver *)

Section Driver.

Variable cfg : config.
Variable fs : filesys.

Lemma heading_code (d : dir_path) :
  0 <= depth d ->
  (if negb (depth d =? 0) then [header d] else []) = heading d.
Proof.
  intros H. unfold heading.
  destruct (Z.eqb_spec (depth d) 0) as [E|E]; destruct (Z.ltb_spec 0 (depth d));
    cbn; try reflexivity; lia.
Qed.

Lemma too_long_prefix (base : dir_path) :
  too_long base = false -> strlen (path_prefix (path base)) <= PATH_MAX.
Proof.
  unfold too_long. intros H.
  destruct (Z.geb_spec (strlen (path base)) (PATH_MAX - 1)); [discriminate|].
  pose proof (path_prefix_length (path base)). lia.
Qed.

Lemma entry_node_subdir (prefix : string) (d : Z) (ents : list string) :
  recursive cfg = true -> 0 <= d < INT_MAX -> strlen prefix <= PATH_MAX ->
  flat_map (entry_node cfg fs prefix d) ents
  = map (fun name => {| path := entry_path prefix name; depth := d + 1 |})
        (List.filter (is_subdir cfg fs prefix) ents).
Proof.
  intros Hr Hd Hp. induction ents as [|name more IH]; [reflexivity|].
  cbn [flat_map List.filter]. rewrite IH.
  unfold entry_node, is_subdir. rewrite Hr, lstat_buffer_path.
  destruct (hidden (filter cfg) name); [reflexivity|].
  destruct (fs_lstat fs (entry_path prefix name)) as [st|e] eqn:Hl; [|reflexivity].
  pose proof (lstat_ok_fits fs prefix name st Hl) as Hfit.
  cbn [negb andb].
  destruct (S_ISDIR (st_mode st)); [|reflexivity].
  destruct (negb (dot_or_dotdot name)); [|reflexivity].
  cbn [andb map app].
  rewrite (buffer_path_fits fs prefix name Hfit).
  rewrite new_dir_path_entry, int_wrap_small by (unfold INT_MAX in *; lia).
  reflexivity.
Qed.

(** With [-R], the nodes [list_dir] inserts are the subdirectories of the
    directory, in the order their entries are read, one level deeper. *)
Lemma inserted_subdirs (base : dir_path) :
  recursive cfg = true -> depth_ok base ->
  inserted cfg fs base = subdirs cfg fs base.
Proof.
  intros Hr Hd. unfold inserted, subdirs, entries.
  destruct (opendir fs (path base)) as [ents|e]; [|reflexivity].
  destruct (too_long base) eqn:Hl; [reflexivity|].
  apply entry_node_subdir; auto using too_long_prefix.
Qed.

(** The iterations of the driver do not read the trace or the open streams:
    a run from any world is the run from the empty one, appended. *)
Lemma run_frame (n : nat) :
  forall (q : list dir_path) (w : world),
    run cfg fs n {| queue := q; sys := w |}
    = {| queue := queue (run cfg fs n {| queue := q; sys := no_world |});
         sys := extend w (traversal cfg fs n q) (leaks cfg fs n q) |}.
Proof.
  unfold traversal, leaks.
  induction n as [|n IH]; intros q w.
  - cbn. rewrite extend_nil. reflexivity.
  - destruct q as [|head next].
    + cbn. rewrite extend_nil. reflexivity.
    + cbn [run]. rewrite !main_step_spec.
      rewrite (IH _ (extend w _ _)), (IH _ (extend no_world _ _)).
      cbn [queue sys]. rewrite !extend_extend.
      unfold extend. cbn [trace open_dirs no_world app].
      rewrite !app_nil_r. reflexivity.
Qed.

(** A queue [q1 ++ q2] is traversed as [q1], with everything found below
    it, and then [q2]. *)
Lemma run_queue_app (n1 : nat) :
  forall (q1 q2 : list dir_path) (w : world) (n2 : nat),
    finishes cfg fs n1 q1 ->
    run cfg fs (n1 + n2) {| queue := q1 ++ q2; sys := w |}
    = run cfg fs n2
        {| queue := q2;
           sys := extend w (traversal cfg fs n1 q1) (leaks cfg fs n1 q1) |}.
Proof.
  induction n1 as [|k IH]; intros q1 q2 w n2 Hf.
  - destruct q1; [|contradiction].
    unfold traversal, leaks. cbn. rewrite extend_nil. reflexivity.
  - destruct q1 as [|head next]; [contradiction|].
    cbn [finishes] in Hf.
    cbn [Nat.add app run]. rewrite main_step_spec, app_assoc.
    rewrite (IH _ _ _ _ Hf).
    f_equal. f_equal.
    unfold traversal at 2, leaks at 2. cbn [run].
    rewrite main_step_spec, run_frame. cbn [sys].
    rewrite !extend_extend. unfold extend.
    cbn [trace open_dirs no_world app]. rewrite !app_nil_r. reflexivity.
Qed.

Lemma traversal_cons (n1 n2 : nat) (head : dir_path) (next : list dir_path) :
  finishes cfg fs n1 (inserted cfg fs head) ->
  traversal cfg fs (S (n1 + n2)) (head :: next)
  = ((if negb (depth head =? 0) then [header head] else [])
     ++ listing cfg fs head
     ++ traversal cfg fs n1 (inserted cfg fs head)
     ++ traversal cfg fs n2 next)%list.
Proof.
  intros Hf. unfold traversal at 1. cbn [run].
  rewrite main_step_spec, (run_queue_app _ _ _ _ _ Hf), run_frame.
  cbn [sys]. unfold extend. cbn [trace open_dirs no_world app].
  rewrite <- !app_assoc. reflexivity.
Qed.

End Driver.

(** ** Traversal order *)

Lemma finishes_empties_queue (cfg : config) (fs : filesys) (n : nat) :
  forall (q : list dir_path) (w : world),
    finishes cfg fs n q -> queue (run cfg fs n {| queue := q; sys := w |}) = [].
Proof.
  induction n as [|k IH]; intros q w Hf.
  - destruct q; [reflexivity | contradiction].
  - destruct q as [|head next]; [contradiction|].
    cbn [run]. rewrite main_step_spec. apply IH, Hf.
Qed.

(** C1. With recursion enabled, listing a directory inserts the
    subdirectories it discovers right after the node being processed, in the
    order their entries were read, ahead of what was already pending.  So one
    iteration of the driver writes all entries of the directory while its
    subdirectories are still pending; the subdirectories, each with all that
    lies below it, come next in reading order, and only then the rest of the
    queue.  The header, the line of the path followed by a colon after an
    empty line, is written before the listing of a directory of depth
    greater than 0 and never for depth 0; every subdirectory is one level
    below its parent, hence has a header. *)
Theorem insertion_order_and_headers (cfg : config) (fs : filesys)
    (base : dir_path) (next : list dir_path) (w : world) :
  recursive cfg = true ->
  depth_ok base ->
  fst (list_dir cfg fs base next w) = (base :: subdirs cfg fs base ++ next)%list
  /\ (exists s',
        main_step cfg fs {| queue := base :: next; sys := w |} = Some s'
        /\ queue s' = (subdirs cfg fs base ++ next)%list
        /\ trace (sys s')
           = (trace w ++ heading base ++ listing cfg fs base)%list
        /\ trace (sys s')
           = (trace w
              ++ (if 0 <? depth base
                  then [Stdout (String "010"%char "" ++ path base ++ ":" ++ String "010"%char "")]
                  else [])
              ++ trace (snd (list_dir cfg fs base next no_world)))%list)
  /\ (forall d, header d = Stdout (String "010"%char "" ++ path d ++ ":" ++ String "010"%char ""))
  /\ listing cfg fs base = trace (snd (list_dir cfg fs base next no_world))
  /\ (heading base = [header base] <-> 0 < depth base)
  /\ (heading base = [] <-> depth base = 0)
  /\ (forall d, In d (subdirs cfg fs base) ->
        depth d = depth base + 1
        /\ heading d = [Stdout (String "010"%char "" ++ path d ++ ":" ++ String "010"%char "")])
  /\ (forall n1 n2,
        finishes cfg fs n1 (subdirs cfg fs base) ->
        queue (run cfg fs n1 {| queue := subdirs cfg fs base; sys := no_world |}) = []
        /\ traversal cfg fs (S (n1 + n2)) (base :: next)
           = ((if 0 <? depth base
               then [Stdout (String "010"%char "" ++ path base ++ ":" ++ String "010"%char "")]
               else [])
              ++ trace (snd (list_dir cfg fs base next no_world))
              ++ traversal cfg fs n1 (subdirs cfg fs base)
              ++ traversal cfg fs n2 next)%list).
Proof.
  intros Hr Hd.
  pose proof (inserted_subdirs cfg fs base Hr Hd) as Hins.
  assert (H0 : 0 <= depth base) by (destruct Hd; assumption).
  assert (Hlist : listing cfg fs base = trace (snd (list_dir cfg fs base next no_world))).
  { rewrite list_dir_spec. reflexivity. }
  assert (Hhead : heading base
                  = if 0 <? depth base
                    then [Stdout (String "010"%char "" ++ path base ++ ":" ++ String "010"%char "")]
                    else []) by reflexivity.
  split; [|split; [|split; [|split; [|split; [|split; [|split]]]]]].
  - rewrite list_dir_spec, Hins. reflexivity.
  - eexists. split; [apply main_step_spec|].
    cbn [queue sys]. rewrite Hins, (heading_code base H0).
    split; [reflexivity|]. split; [reflexivity|].
    rewrite <- Hlist, <- Hhead. reflexivity.
  - reflexivity.
  - exact Hlist.
  - unfold heading. destruct (Z.ltb_spec 0 (depth base)).
    + split; [intros _; assumption | reflexivity].
    + split; [discriminate | lia].
  - unfold heading. destruct (Z.ltb_spec 0 (depth base)).
    + split; [discriminate | lia].
    + split; [lia | reflexivity].
  - intros d Hin. unfold subdirs in Hin.
    apply in_map_iff in Hin. destruct Hin as (name & <- & _).
    unfold heading. cbn [depth].
    split; [reflexivity|].
    destruct (Z.ltb_spec 0 (depth base + 1)); [reflexivity | lia].
  - intros n1 n2 Hf. split; [apply finishes_empties_queue, Hf|].
    rewrite <- Hins in *.
    rewrite (traversal_cons cfg fs n1 n2 base next Hf), (heading_code base H0).
    rewrite <- Hlist, <- Hhead. reflexivity.
Qed.

Lemma insertion_order_and_headers_witness :
  let cfg := Demo.opts true false in
  let root := new_dir_path "root" 0 in
  let a := {| path := "root/a"; depth := 1 |} in
  subdirs cfg Demo.tree root = [a; {| path := "root/b"; depth := 1 |}]
  /\ fst (list_dir cfg Demo.tree root [] no_world)
     = (root :: subdirs cfg Demo.tree root ++ [])%list
  /\ traversal cfg Demo.tree 5 [root]
     = ((if 0 <? depth root
         then [Stdout (String "010"%char "" ++ path root ++ ":" ++ String "010"%char "")]
         else [])
        ++ trace (snd (list_dir cfg Demo.tree root [] no_world))
        ++ traversal cfg Demo.tree 4 (subdirs cfg Demo.tree root)
        ++ traversal cfg Demo.tree 0 [])%list
  /\ heading a = [Stdout (String "010"%char "" ++ "root/a" ++ ":" ++ String "010"%char "")].
Proof.
  intros cfg root a.
  assert (Hr : recursive cfg = true) by reflexivity.
  assert (Hd : depth_ok root) by (unfold depth_ok, INT_MAX; cbn; lia).
  assert (Hf : finishes cfg Demo.tree 4 (subdirs cfg Demo.tree root))
    by (vm_compute; exact I).
  pose proof (insertion_order_and_headers cfg Demo.tree root [] no_world Hr Hd)
    as (Hl & _ & _ & _ & _ & _ & Hsub & Ht).
  split; [reflexivity|].
  split; [exact Hl|].
  split; [exact (proj2 (Ht 4%nat 0%nat Hf))|].
  apply (Hsub a). left. reflexivity.
Defined.

(** The tree [root/{a/{x}, b}] of the sample platform: [root], then
    [root/a] and what is below it, then [root/b]. *)
Example traversal_of_sample_tree :
  traversal (Demo.opts true false) Demo.tree 5 [new_dir_path "root" 0]
  = [Stdout ("a" ++ nl); Stdout ("f" ++ nl);
     Stderr ("root/gone: No such file or directory" ++ nl);
     Stdout ("b" ++ nl); Stdout ("l" ++ nl);
     Stdout (nl ++ "root/a:" ++ nl);
     Stdout ("x" ++ nl); Stdout ("dangling" ++ nl); Stdout ("mute" ++ nl);
     Stdout (nl ++ "root/a/x:" ++ nl);
     Stdout (nl ++ "root/b:" ++ nl);
     Stdout ("locked" ++ nl);
     Stdout (nl ++ "root/b/locked:" ++ nl);
     Stderr ("root/b/locked: Permission denied" ++ nl)].
Proof. reflexivity. Qed.

(** Without [-R] only the root is listed, and no header is written. *)
Example listing_without_recursion :
  run (Demo.opts false false) Demo.tree 1 (main_init "root")
  = {| queue := [];
       sys := {| trace := [Stdout ("a" ++ nl); Stdout ("f" ++ nl);
                           Stderr ("root/gone: No such file or directory" ++ nl);
                           Stdout ("b" ++ nl); Stdout ("l" ++ nl)];
                 open_dirs := [] |} |}.
Proof. reflexivity. Qed.

(** ** Recoverable errors *)

Lemma read_loop_app (cfg : config) (fs : filesys) (prefix : string) (d : Z)
    (pre post : list string) :
  forall (c : cursor) (w : world),
    read_loop cfg fs prefix d (pre ++ post) c w
    = let (c1, w1) := read_loop cfg fs prefix d pre c w in
      read_loop cfg fs prefix d post c1 w1.
Proof.
  induction pre as [|name pre IH]; intros c w; [reflexivity|].
  cbn [app read_loop].
  destruct (hidden (filter cfg) name); [apply IH|].
  destruct (fs_lstat fs (buffer_path fs prefix name)); apply IH.
Qed.

Lemma append_nonempty (a b : string) : a <> "" -> a ++ b <> "".
Proof. destruct a; [congruence | discriminate]. Qed.

Lemma path_prefix_nonempty (p : string) : path_prefix p <> "".
Proof.
  unfold path_prefix. destruct (ascii_is (last_char p) "/") eqn:E; cbn [negb].
  - destruct p; [discriminate E | discriminate].
  - destruct p; discriminate.
Qed.

Lemma buffer_path_nonempty (fs : filesys) (prefix name : string) :
  prefix <> "" -> buffer_path fs prefix name <> "".
Proof.
  intros H. unfold buffer_path, entry_path.
  destruct (_ <? _); [apply append_nonempty, H|].
  apply append_nonempty, append_nonempty, H.
Qed.

(** [perror] of a string that is not empty. *)
Lemma perror_nonempty (fs : filesys) (s : string) (e : Z) :
  s <> "" -> perror fs s e = Stderr (s ++ ": " ++ strerror fs e ++ String "010"%char "").
Proof.
  intros H. unfold perror.
  destruct (String.eqb_spec s ""); [contradiction | reflexivity].
Qed.

Lemma strlen_nonempty (s : string) : 0 < strlen s -> s <> "".
Proof. destruct s; cbn; [lia | discriminate]. Qed.




(** ** A base path that is too long *)

(** C8, as the code has it.  When the base path of a queued directory has
    [PATH_MAX - 1] bytes or more, [list_dir] abandons that directory only:
    it writes nothing to the output and queues nothing, and the driver goes
    on with the directories that were pending behind it.  The one line it
    writes to the error stream is the fixed line [too long path], which does
    not name the path, when the directory could be opened; and the line
    [<path>: <reason>] of the failed open when it could not, the open being
    tried first. *)
Theorem too_long_path_is_skipped (cfg : config) (fs : filesys)
    (head : dir_path) (next : list dir_path) (w : world) :
  PATH_MAX - 1 <= strlen (path head) ->
  let diagnostic :=
    match opendir fs (path head) with
    | Ok _ => Stderr ("too long path" ++ String "010"%char "")
    | Fail e => Stderr (path head ++ ": " ++ strerror fs e ++ String "010"%char "")
    end in
  trace (snd (list_dir cfg fs head next w)) = (trace w ++ [diagnostic])%list
  /\ fst (list_dir cfg fs head next w) = head :: next
  /\ listing cfg fs head = [diagnostic]
  /\ inserted cfg fs head = []
  /\ exists s',
       main_step cfg fs {| queue := head :: next; sys := w |} = Some s'
       /\ queue s' = next
       /\ trace (sys s')
          = (trace w
             ++ (if negb (depth head =? 0)
                 then [Stdout (String "010"%char "" ++ path head ++ ":" ++ String "010"%char "")]
                 else [])
             ++ [diagnostic])%list
       /\ forall n,
            run cfg fs (S n) {| queue := head :: next; sys := w |}
            = run cfg fs n s'.
Proof.
  intros Hl diagnostic.
  assert (Ht : too_long head = true).
  { unfold too_long.
    destruct (Z.geb_spec (strlen (path head)) (PATH_MAX - 1)); [reflexivity | lia]. }
  assert (Hne : path head <> "").
  { apply strlen_nonempty. unfold PATH_MAX in Hl. lia. }
  assert (Hlist : listing cfg fs head = [diagnostic]).
  { unfold listing, diagnostic. rewrite Ht.
    destruct (opendir fs (path head)) as [ents|e]; [reflexivity|].
    rewrite (perror_nonempty fs _ e Hne). reflexivity. }
  assert (Hins : inserted cfg fs head = []).
  { unfold inserted. rewrite Ht. destruct (opendir fs (path head)); reflexivity. }
  split; [|split; [|split; [|split]]].
  - rewrite list_dir_spec, Hlist. reflexivity.
  - rewrite list_dir_spec, Hins. reflexivity.
  - exact Hlist.
  - exact Hins.
  - eexists. split; [apply main_step_spec|].
    cbn [queue sys trace extend]. rewrite Hins, Hlist.
    split; [reflexivity|]. split; [reflexivity|].
    intros n. cbn [run]. rewrite main_step_spec, Hins, Hlist. reflexivity.
Qed.

Lemma too_long_path_is_skipped_witness :
  let cfg := Demo.opts true false in
  let head := {| path := Demo.long_path; depth := 3 |} in
  trace (snd (list_dir cfg Demo.deep head [] no_world))
    = [Stderr ("too long path" ++ String "010"%char "")]
  /\ trace (snd (list_dir cfg Demo.tree head [] no_world))
     = [Stderr (Demo.long_path ++ ": " ++ "No such file or directory" ++ String "010"%char "")].
Proof.
  intros cfg head.
  assert (Hl : PATH_MAX - 1 <= strlen (path head)) by (vm_compute; discriminate).
  split.
  - exact (proj1 (too_long_path_is_skipped cfg Demo.deep head [] no_world Hl)).
  - exact (proj1 (too_long_path_is_skipped cfg Demo.tree head [] no_world Hl)).
Defined.

(** C8 as the specification words it fails: for the directory
    [////...//tmp], whose path has [PATH_MAX - 1] bytes, the line on the
    error stream is not of the form [<path>: <reason>]. *)
Lemma too_long_diagnostic_omits_path :
  let s := run (Demo.opts true false) Demo.deep 1 (main_init Demo.long_path) in
  trace (sys s) = [Stderr ("too long path" ++ nl)]
  /\ ~ exists reason : string,
         trace (sys s) = [Stderr (Demo.long_path ++ ": " ++ reason)].
Proof.
  intros s.
  assert (Ht : trace (sys s) = [Stderr ("too long path" ++ nl)])
    by (vm_compute; reflexivity).
  split; [exact Ht|].
  intros [reason H]. rewrite Ht in H.
  unfold Demo.long_path in H.
  change (Demo.slashes 4092) with (String "/"%char (Demo.slashes 4091)) in H.
  cbn [append] in H. discriminate H.
Qed.

(** ** Directory streams *)

(** What [list_dir] does to the open streams: it adds those of [left_open],
    which is empty unless the base path is too long. *)
Lemma list_dir_streams (cfg : config) (fs : filesys) (base : dir_path)
    (next : list dir_path) (w : world) :
  open_dirs (snd (list_dir cfg fs base next w))
  = (left_open fs base ++ open_dirs w)%list
  /\ (too_long base = false -> left_open fs base = [])
  /\ (forall e, opendir fs (path base) = Fail e -> left_open fs base = []).
Proof.
  rewrite list_dir_spec. split; [reflexivity|]. split.
  - intros Hl. unfold left_open. rewrite Hl.
    destruct (opendir fs (path base)); reflexivity.
  - intros e Ho. unfold left_open. rewrite Ho. reflexivity.
Qed.

(** C6 fails on the code: listing the directory [////...//tmp], whose path
    has [PATH_MAX - 1] bytes, takes the early exit for a too long path, and
    the stream opened for it is still open when the driver has finished;
    the other exits of [list_dir] leave no stream open. *)
Theorem stream_left_open_on_too_long_path :
  let s := run (Demo.opts true false) Demo.deep 1 (main_init Demo.long_path) in
  queue s = []
  /\ trace (sys s) = [Stderr ("too long path" ++ nl)]
  /\ open_dirs (sys s) = [Demo.long_path]
  /\ open_dirs (sys (run (Demo.opts true false) Demo.tree 5 (main_init "root"))) = [].
Proof.
  vm_compute. repeat split; reflexivity.
Qed.

(** ** Symbolic links *)

Lemma link_is_not_dir (mode : Z) : S_ISLNK mode = true -> S_ISDIR mode = false.
Proof.
  unfold S_ISLNK, S_ISDIR, S_ISTYPE. intros H.
  apply Z.eqb_eq in H. rewrite H. reflexivity.
Qed.

Lemma dir_is_not_link (mode : Z) : S_ISDIR mode = true -> S_ISLNK mode = false.
Proof.
  unfold S_ISLNK, S_ISDIR, S_ISTYPE. intros H.
  apply Z.eqb_eq in H. rewrite H. reflexivity.
Qed.

Lemma entry_node_is_dir (cfg : config) (fs : filesys) (prefix : string) (d : Z)
    (name : string) (n : dir_path) :
  In n (entry_node cfg fs prefix d name) ->
  path n = entry_path prefix name
  /\ strlen prefix + strlen name < PATH_MAX
  /\ dot_or_dotdot name = false
  /\ depth n = int_wrap (d + 1)
  /\ exists st, fs_lstat fs (path n) = Ok st /\ S_ISDIR (st_mode st) = true.
Proof.
  unfold entry_node.
  destruct (hidden (filter cfg) name); [contradiction|].
  destruct (fs_lstat fs (buffer_path fs prefix name)) as [st|e] eqn:Hl;
    [|contradiction].
  destruct (lstat_ok_buffer fs prefix name st Hl) as [Hb Hfit].
  rewrite Hb in *.
  destruct (S_ISDIR (st_mode st)) eqn:Hd;
    [|rewrite andb_false_r; contradiction].
  destruct (dot_or_dotdot name) eqn:Hdot;
    [rewrite andb_false_r; contradiction|].
  destruct (recursive cfg); [|contradiction].
  intros [<-|[]]. rewrite new_dir_path_entry by assumption. cbn [path depth].
  split; [reflexivity|]. split; [exact Hfit|]. split; [reflexivity|].
  split; [reflexivity|]. exists st. auto.
Qed.

(** C9. Whether an entry is queued is decided on the metadata read without
    following links.  An entry that is a symbolic link is never queued,
    whatever following the link would answer, a directory included: the loop
    writes its line and goes on with the same queue.  Every node that
    [list_dir] queues is a directory by that metadata and not a link, so a
    cycle of links adds nothing to the queue. *)
Theorem symlinks_are_not_queued (cfg : config) (fs : filesys) :
  (forall prefix d name more c w st,
      hidden (filter cfg) name = false ->
      fs_lstat fs (entry_path prefix name) = Ok st ->
      S_ISLNK (st_mode st) = true ->
      entry_node cfg fs prefix d name = []
      /\ is_subdir cfg fs prefix name = false
      /\ read_loop cfg fs prefix d (name :: more) c w
         = read_loop cfg fs prefix d more c
             (emit (Stdout (print_entry cfg fs name st
                              (resolve_link fs (entry_path prefix name) (st_mode st)))) w))
  /\ (forall base n,
        In n (inserted cfg fs base) ->
        exists st,
          fs_lstat fs (path n) = Ok st
          /\ S_ISDIR (st_mode st) = true
          /\ S_ISLNK (st_mode st) = false).
Proof.
  split.
  - intros prefix d name more c w st Hh Hl Hk.
    pose proof (link_is_not_dir _ Hk) as Hd.
    pose proof (buffer_path_fits fs prefix name (lstat_ok_fits fs prefix name st Hl))
      as Hb.
    split; [|split].
    + unfold entry_node. rewrite Hh, Hb, Hl, Hd, andb_false_r. reflexivity.
    + unfold is_subdir. rewrite Hh, Hl, Hd. reflexivity.
    + cbn [read_loop]. rewrite Hh, Hb, Hl, Hd, andb_false_r. reflexivity.
  - intros base n. unfold inserted.
    destruct (opendir fs (path base)) as [ents|e]; [|contradiction].
    destruct (too_long base) eqn:Ht; [contradiction|].
    intros Hin. apply in_flat_map in Hin. destruct Hin as (name & _ & Hin).
    apply entry_node_is_dir in Hin.
    destruct Hin as (_ & _ & _ & _ & st & Hl & Hd).
    exists st. auto using dir_is_not_link.
Qed.

Lemma symlinks_are_not_queued_witness :
  let cfg := Demo.opts true false in
  fs_stat Demo.tree "root/l" = Ok (Demo.mk_stat Demo.dir_mode)
  /\ entry_node cfg Demo.tree "root/" 0 "l" = []
  /\ is_subdir cfg Demo.tree "root/" "l" = false.
Proof.
  intros cfg.
  destruct (symlinks_are_not_queued cfg Demo.tree) as [Hlink _].
  split; [reflexivity|].
  assert (Hh : hidden (filter cfg) "l" = false) by reflexivity.
  assert (Hl : fs_lstat Demo.tree (entry_path "root/" "l")
               = Ok (Demo.mk_stat Demo.lnk_mode)) by reflexivity.
  assert (Hk : S_ISLNK (st_mode (Demo.mk_stat Demo.lnk_mode)) = true) by reflexivity.
  destruct (Hlink "root/" 0 "l" [] {| upto := []; after := [] |} no_world
              (Demo.mk_stat Demo.lnk_mode) Hh Hl Hk) as (H1 & H2 & _).
  split; assumption.
Defined.

(** ** The link target in long format *)

Lemma append_assoc_string (a b c : string) : (a ++ b) ++ c = a ++ (b ++ c).
Proof. induction a as [|x a IH]; cbn; [reflexivity | rewrite IH; reflexivity]. Qed.

Lemma strlen_strncpy_pos (n : nat) (s : string) :
  (0 < n)%nat -> (0 < strlen (CStr.strncpy n s) <-> s <> "").
Proof.
  intros Hn. destruct n as [|n]; [lia|]. unfold strlen.
  destruct s as [|c s]; cbn.
  - split; [lia | congruence].
  - split; [discriminate | lia].
Qed.

Lemma link_len_pos (fs : filesys) (p : string) (mode : Z) :
  0 < link_len (resolve_link fs p mode)
  <-> S_ISLNK mode = true
      /\ exists target, fs_readlink fs p = Ok target /\ target <> "".
Proof.
  unfold resolve_link.
  destruct (S_ISLNK mode).
  - assert (Hlen : 0 < (match fs_readlink fs p with
                        | Ok _ =>
                            strlen match fs_readlink fs p with
                                   | Ok target => CStr.strncpy (Z.to_nat PATH_MAX) target
                                   | Fail _ => ""
                                   end
                        | Fail _ => -1
                        end)
                   <-> exists target, fs_readlink fs p = Ok target /\ target <> "").
    { destruct (fs_readlink fs p) as [target|e].
      - rewrite strlen_strncpy_pos by (unfold PATH_MAX; lia).
        split.
        + intros H. exists target. auto.
        + intros (t & Ht & Hne). congruence.
      - split; [lia | intros (t & Ht & _); discriminate]. }
    destruct (fs_stat fs p); cbn [link_len]; rewrite Hlen; tauto.
  - cbn [link_len]. split; [lia | intros [H _]; discriminate].
Qed.

(** C10. In long format, the line of an entry ends in [ -> target] exactly
    when the entry is a symbolic link and [readlink] returned at least one
    byte; a link whose target cannot be read is listed without any [ -> ].
    Whether the link counts as broken ([link_ok] false) depends only on
    whether the metadata retrieval that follows the link fails, not on
    [readlink]. *)
Theorem link_suffix_in_long_format (cfg : config) (fs : filesys)
    (name p : string) (st : stat_t) :
  long_format cfg = true ->
  let li := resolve_link fs p (st_mode st) in
  let readable :=
    S_ISLNK (st_mode st) = true
    /\ exists target, fs_readlink fs p = Ok target /\ target <> "" in
  (readable ->
   print_entry cfg fs name st li
   = line_start cfg fs name st (link_ok li) ++ " -> " ++ shown_target cfg li ++ nl)
  /\ (~ readable ->
      print_entry cfg fs name st li = line_start cfg fs name st (link_ok li) ++ nl)
  /\ (forall e, S_ISLNK (st_mode st) = true -> fs_readlink fs p = Fail e ->
      print_entry cfg fs name st li = line_start cfg fs name st (link_ok li) ++ nl)
  /\ (forall target, S_ISLNK (st_mode st) = true -> fs_readlink fs p = Ok target ->
      link li = CStr.strncpy (Z.to_nat PATH_MAX) target)
  /\ link_ok li = negb (S_ISLNK (st_mode st) && dangling fs p).
Proof.
  intros Hlong li readable.
  assert (Hshape : print_entry cfg fs name st li
                   = line_start cfg fs name st (link_ok li)
                     ++ (if link_len li >? 0 then " -> " ++ shown_target cfg li else "")
                     ++ nl).
  { unfold print_entry, line_start, shown_target. rewrite Hlong.
    rewrite !append_assoc_string. reflexivity. }
  assert (Hpos : 0 < link_len li <-> readable) by apply link_len_pos.
  assert (Hno : ~ readable ->
                print_entry cfg fs name st li
                = line_start cfg fs name st (link_ok li) ++ nl).
  { intros Hn. rewrite Hshape.
    destruct (Z.gtb_spec (link_len li) 0) as [Hgt|Hle]; [|reflexivity].
    exfalso. apply Hn, Hpos. lia. }
  split; [|split; [|split; [|split]]].
  - intros Hr. rewrite Hshape.
    destruct (Z.gtb_spec (link_len li) 0) as [Hgt|Hle].
    + rewrite !append_assoc_string. reflexivity.
    + apply Hpos in Hr. lia.
  - exact Hno.
  - intros e _ He. apply Hno. intros (_ & t & Ht & _). congruence.
  - intros target Hk Ht. unfold li, resolve_link. rewrite Hk, Ht.
    destruct (fs_stat fs p); reflexivity.
  - unfold li, resolve_link, dangling.
    destruct (S_ISLNK (st_mode st)); [|reflexivity].
    destruct (fs_stat fs p); reflexivity.
Qed.

Lemma link_suffix_in_long_format_witness :
  let cfg := Demo.opts true true in
  let lnk := Demo.mk_stat Demo.lnk_mode in
  print_entry cfg Demo.tree "dangling" lnk
    (resolve_link Demo.tree "root/a/dangling" Demo.lnk_mode)
  = line_start cfg Demo.tree "dangling" lnk false ++ " -> nowhere" ++ nl
  /\ print_entry cfg Demo.tree "mute" lnk
       (resolve_link Demo.tree "root/a/mute" Demo.lnk_mode)
     = line_start cfg Demo.tree "mute" lnk true ++ nl.
Proof.
  intros cfg lnk.
  assert (Hlong : long_format cfg = true) by reflexivity.
  split.
  - apply (link_suffix_in_long_format cfg Demo.tree "dangling" "root/a/dangling"
             lnk Hlong).
    split; [reflexivity|]. exists "nowhere". split; [reflexivity | discriminate].
  - apply (proj1 (proj2 (proj2 (link_suffix_in_long_format cfg Demo.tree "mute"
                                  "root/a/mute" lnk Hlong))) Demo.EACCES);
      reflexivity.
Defined.

(** ** Termination and the range of depths *)

Section Termination.

Variable cfg : config.
Variable fs : filesys.
Hypothesis Hnames : names_nonempty fs.

Lemma opendir_names (p : string) (ents : list string) :
  opendir fs p = Ok ents -> p <> "" /\ Forall (fun name => name <> "") ents.
Proof.
  unfold opendir. destruct (String.eqb_spec p "") as [->|Hne]; [discriminate|].
  intros H. split; [assumption | exact (Hnames p ents H)].
Qed.

Lemma strlen_nonneg (s : string) : 0 <= strlen s.
Proof. unfold strlen. lia. Qed.

(** The path of an entry is longer than the path of its directory. *)
Lemma entry_path_longer (base_path name : string) :
  name <> "" ->
  strlen base_path < strlen (entry_path (path_prefix base_path) name).
Proof.
  intros Hn. rewrite entry_path_strlen.
  pose proof (path_prefix_length base_path) as [Hlo Hhi].
  assert (Hpos : 0 < strlen name).
  { unfold strlen. destruct name; [congruence | cbn; lia]. }
  lia.
Qed.

Lemma inserted_longer (base n : dir_path) :
  In n (inserted cfg fs base) ->
  strlen (path base) < strlen (path n) <= PATH_MAX
  /\ depth n = int_wrap (depth base + 1).
Proof.
  unfold inserted.
  destruct (opendir fs (path base)) as [ents|e] eqn:Ho; [|contradiction].
  destruct (too_long base) eqn:Ht; [contradiction|].
  intros Hin. apply in_flat_map in Hin. destruct Hin as (name & Hname & Hin).
  destruct (opendir_names _ _ Ho) as [_ Hall].
  rewrite Forall_forall in Hall. specialize (Hall name Hname).
  apply entry_node_is_dir in Hin.
  destruct Hin as (Hp & Hfit & _ & Hd & _).
  rewrite Hp. split; [split|exact Hd].
  - apply entry_path_longer; assumption.
  - rewrite entry_path_strlen. lia.
Qed.

Lemma finishes_app (n1 : nat) :
  forall (q1 q2 : list dir_path) (n2 : nat),
    finishes cfg fs n1 q1 -> finishes cfg fs n2 q2 ->
    finishes cfg fs (n1 + n2) (q1 ++ q2).
Proof.
  induction n1 as [|k IH]; intros q1 q2 n2 H1 H2.
  - destruct q1; [exact H2 | contradiction].
  - destruct q1 as [|head next]; [contradiction|].
    cbn [finishes Nat.add app] in *. rewrite app_assoc. apply IH; assumption.
Qed.

Lemma finishes_bounded (k : nat) :
  forall q : list dir_path,
    Forall (fun d => PATH_MAX - strlen (path d) < Z.of_nat k) q ->
    exists n, finishes cfg fs n q.
Proof.
  induction k as [|k IHk]; intros q; induction q as [|head next IHq]; intros Hq.
  - exists 0%nat. exact I.
  - inversion Hq as [|? ? Hhead Hnext]; subst.
    destruct (IHq Hnext) as [n2 H2].
    exists (S n2). cbn [finishes].
    destruct (inserted cfg fs head) as [|n l] eqn:Hi; [exact H2|].
    exfalso. destruct (inserted_longer head n) as [[? ?] _];
      [rewrite Hi; left; reflexivity | lia].
  - exists 0%nat. exact I.
  - inversion Hq as [|? ? Hhead Hnext]; subst.
    destruct (IHq Hnext) as [n2 H2].
    destruct (IHk (inserted cfg fs head)) as [n1 H1].
    { apply Forall_forall. intros n Hin.
      destruct (inserted_longer head n Hin) as [[? ?] _]. lia. }
    exists (S (n1 + n2)). cbn [finishes]. apply finishes_app; assumption.
Qed.

(** On a platform whose directory entries have names, the driver empties
    every queue: [ls -R] terminates. *)
Lemma traversal_terminates (q : list dir_path) :
  exists n, finishes cfg fs n q.
Proof.
  apply (finishes_bounded (Z.to_nat (PATH_MAX + 1))).
  apply Forall_forall. intros d _.
  pose proof (strlen_nonneg (path d)). unfold PATH_MAX in *. lia.
Qed.

Lemma finishes_run (n : nat) :
  forall (q : list dir_path) (w : world),
    finishes cfg fs n q -> queue (run cfg fs n {| queue := q; sys := w |}) = [].
Proof.
  induction n as [|k IH]; intros q w Hf.
  - destruct q; [reflexivity | contradiction].
  - destruct q as [|head next]; [contradiction|].
    cbn [run]. rewrite main_step_spec. apply IH, Hf.
Qed.

Lemma depth_within_path_ok (d : dir_path) : depth_within_path d -> depth_ok d.
Proof.
  unfold depth_within_path, depth_ok, INT_MAX, PATH_MAX. lia.
Qed.

Lemma inserted_depth_within_path (base n : dir_path) :
  depth_within_path base -> In n (inserted cfg fs base) -> depth_within_path n.
Proof.
  intros Hb Hin. destruct (inserted_longer base n Hin) as [[Hlt Hle] Hd].
  unfold depth_within_path, PATH_MAX in *.
  rewrite Hd, int_wrap_small by (unfold INT_MAX; lia). lia.
Qed.

(** Every node the driver ever has in its queue has a depth between 0 and
    the length of its path. *)
Lemma run_depth_within_path (n : nat) :
  forall s : state,
    Forall depth_within_path (queue s) ->
    Forall depth_within_path (queue (run cfg fs n s)).
Proof.
  induction n as [|k IH]; intros [q w] Hq; [exact Hq|].
  destruct q as [|head next]; [exact Hq|].
  cbn [run]. rewrite main_step_spec. apply IH. cbn [queue] in *.
  inversion Hq as [|? ? Hhead Hnext]; subst.
  apply Forall_app. split; [|assumption].
  apply Forall_forall. intros d Hin.
  exact (inserted_depth_within_path head d Hhead Hin).
Qed.

Lemma main_init_depth_within_path (p : string) :
  Forall depth_within_path (queue (main_init p)).
Proof.
  constructor; [|constructor].
  unfold depth_within_path, new_dir_path. cbn [path depth].
  pose proof (strncpy_length (Z.to_nat (PATH_MAX + 1)) p).
  unfold strlen, PATH_MAX in *. lia.
Qed.

(** In a run of [main], the depth of every queued node is in the range the
    traversal theorem asks for. *)
Lemma reachable_depth_ok (p : string) (n : nat) :
  Forall depth_ok (queue (run cfg fs n (main_init p))).
Proof.
  eapply Forall_impl; [exact depth_within_path_ok|].
  apply run_depth_within_path, main_init_depth_within_path.
Qed.

End Termination.

(** * More of the program *)

(** ** The command line *)

Ltac eval_letters :=
  repeat match goal with
  | |- context [Cli.opt_of ?c =? Cli.opt_of ?d] =>
      let v := eval vm_compute in (Cli.opt_of c =? Cli.opt_of d) in
      change (Cli.opt_of c =? Cli.opt_of d) with v
  end.

Section CommandLine.

Variable env : Cli.libc.

Ltac by_letter opt :=
  destruct (Z.eqb_spec opt (Cli.opt_of "a"));
  [|destruct (Z.eqb_spec opt (Cli.opt_of "A"));
   [|destruct (Z.eqb_spec opt (Cli.opt_of "C"));
    [|destruct (Z.eqb_spec opt (Cli.opt_of "F"));
     [|destruct (Z.eqb_spec opt (Cli.opt_of "l"));
      [|destruct (Z.eqb_spec opt (Cli.opt_of "R"))]]]]].

Lemma recognised_cases (opt : Z) :
  Cli.recognised opt = true ->
  opt = Cli.opt_of "a" \/ opt = Cli.opt_of "A" \/ opt = Cli.opt_of "C"
  \/ opt = Cli.opt_of "F" \/ opt = Cli.opt_of "l" \/ opt = Cli.opt_of "R".
Proof.
  unfold Cli.recognised, Cli.letters. cbn [existsb].
  by_letter opt; auto 7. cbn. discriminate.
Qed.

(** The loop runs to its end on recognised letters, reading the clock once
    for each [-l]. *)
Lemma parse_loop_completes (opts : list Z) :
  forallb Cli.recognised opts = true ->
  forall g calls,
    snd (Cli.parse_loop env opts g calls) = true
    /\ snd (fst (Cli.parse_loop env opts g calls)) = (calls + Cli.count_l opts)%nat.
Proof.
  induction opts as [|opt more IH]; intros Hall g calls.
  - cbn. split; [reflexivity | unfold Cli.count_l; cbn; lia].
  - cbn [forallb] in Hall. apply andb_true_iff in Hall. destruct Hall as [Ho Hm].
    destruct (recognised_cases opt Ho) as [-> | [-> | [-> | [-> | [-> | ->]]]]];
      cbn [Cli.parse_loop]; cbn;
      match goal with
      | |- context [Cli.parse_loop env more ?g' ?c'] =>
          destruct (IH Hm g' c') as [H1 H2]; rewrite H1, H2
      end;
      (split; [reflexivity | unfold Cli.count_l; cbn; lia]).
Qed.

Lemma given_cons (c : ascii) (opt : Z) (more : list Z) :
  Cli.given c (opt :: more) = (Cli.opt_of c =? opt) || Cli.given c more.
Proof. reflexivity. Qed.

Lemma count_l_cons (opt : Z) (more : list Z) :
  Cli.count_l (opt :: more)
  = ((if (Cli.opt_of "l" =? opt)%Z then 1 else 0) + Cli.count_l more)%nat.
Proof.
  unfold Cli.count_l. cbn [List.filter].
  destruct (Cli.opt_of "l" =? opt); reflexivity.
Qed.

(** The filter the loop leaves when it starts from the filter [f]. *)
Lemma filter_choice_from (f : filter_t) (opt : Z) (more : list Z) :
  match rev (List.filter Cli.is_filter_opt (opt :: more)) with
  | [] => f
  | o :: _ => if o =? Cli.opt_of "a" then FILTER_ALL else FILTER_ALMOST
  end
  = match rev (List.filter Cli.is_filter_opt more) with
    | [] => if Cli.is_filter_opt opt
            then (if opt =? Cli.opt_of "a" then FILTER_ALL else FILTER_ALMOST)
            else f
    | o :: _ => if o =? Cli.opt_of "a" then FILTER_ALL else FILTER_ALMOST
    end.
Proof.
  cbn [List.filter]. destruct (Cli.is_filter_opt opt); [|reflexivity].
  cbn [rev]. destruct (rev (List.filter Cli.is_filter_opt more)); reflexivity.
Qed.

(** The globals the loop leaves on recognised letters, starting from any
    globals. *)
Lemma parse_loop_fields (opts : list Z) :
  forallb Cli.recognised opts = true ->
  forall g calls,
    let g' := fst (fst (Cli.parse_loop env opts g calls)) in
    filter g'
    = match rev (List.filter Cli.is_filter_opt opts) with
      | [] => filter g
      | o :: _ => if o =? Cli.opt_of "a" then FILTER_ALL else FILTER_ALMOST
      end
    /\ color g' = color g || (Cli.isatty env && Cli.given "C" opts)
    /\ classify g' = classify g || Cli.given "F" opts
    /\ long_format g' = long_format g || Cli.given "l" opts
    /\ recursive g' = recursive g || Cli.given "R" opts
    /\ half_year_ago g'
       = match Cli.count_l opts with
         | O => half_year_ago g
         | S k => long_wrap (Cli.time_at env (calls + k)
                             - Cli.HALF_YEAR_SECOND)
         end.
Proof.
  induction opts as [|opt more IH]; intros Hall g calls.
  - cbn. rewrite !orb_false_r, andb_false_r, orb_false_r. auto 6.
  - cbn [forallb] in Hall. apply andb_true_iff in Hall. destruct Hall as [Ho Hm].
    intros g'. subst g'.
    rewrite filter_choice_from, !given_cons, count_l_cons.
    destruct (recognised_cases opt Ho) as [-> | [-> | [-> | [-> | [-> | ->]]]]];
      cbn [Cli.parse_loop]; eval_letters; cbv iota;
      match goal with
      | |- context [Cli.parse_loop env more ?g1 ?c1] =>
          destruct (IH Hm g1 c1) as (Hf & Hc & Hk & Hl & Hr & Hh);
          rewrite Hf, Hc, Hk, Hl, Hr, Hh
      end;
      unfold Cli.is_filter_opt; eval_letters;
      cbn [orb andb Cli.set_filter Cli.set_color Cli.set_classify
           Cli.set_long_format Cli.set_recursive
           filter color classify long_format recursive half_year_ago Nat.add];
      repeat split;
      try (destruct (rev (List.filter _ more)); reflexivity);
      try (destruct (Cli.isatty env); cbn [Cli.set_color color];
           destruct (color g), (Cli.given "C" more); reflexivity);
      try (destruct (Cli.isatty env); reflexivity);
      try (destruct (classify g); reflexivity);
      try (destruct (long_format g); reflexivity);
      try (destruct (recursive g); reflexivity);
      try (destruct (Cli.count_l more);
           [rewrite ?Nat.add_0_r | rewrite ?Nat.add_succ_r]; reflexivity).
Qed.

End CommandLine.

Lemma parse_cmd_args_completed (env : Cli.libc) :
  forallb Cli.recognised (Cli.getopt_long env) = true ->
  Cli.parse_cmd_args env
  = (fst (fst (Cli.parse_loop env (Cli.getopt_long env) Cli.globals0 0)),
     Some (if Z.of_nat (List.length (Cli.argv env)) >? Cli.optind env
           then nth (Z.to_nat (Cli.optind env)) (Cli.argv env) ""
           else "./")).
Proof.
  intros Hall. unfold Cli.parse_cmd_args.
  destruct (parse_loop_completes env _ Hall Cli.globals0 0%nat) as [Hc _].
  destruct (Cli.parse_loop env (Cli.getopt_long env) Cli.globals0 0)
    as [[g calls] completed].
  cbn [fst snd] in *. rewrite Hc. reflexivity.
Qed.

(** X1. When every option is one of [aACFlR], [parse_cmd_args] returns a
    path and leaves each flag set exactly when its letter was given, in any
    order and any number of times; [-C] sets the color flag only when
    standard output is a terminal.  The path is the operand at [optind], or
    [./] when there is none; operands after it are not looked at. *)
Theorem options_set_the_flags (env : Cli.libc) :
  forallb Cli.recognised (Cli.getopt_long env) = true ->
  let g := fst (Cli.parse_cmd_args env) in
  let opts := Cli.getopt_long env in
  classify g = Cli.given "F" opts
  /\ recursive g = Cli.given "R" opts
  /\ long_format g = Cli.given "l" opts
  /\ color g = Cli.isatty env && Cli.given "C" opts
  /\ snd (Cli.parse_cmd_args env)
     = Some (if Z.of_nat (List.length (Cli.argv env)) >? Cli.optind env
             then nth (Z.to_nat (Cli.optind env)) (Cli.argv env) ""
             else "./").
Proof.
  intros Hall g opts. subst g opts.
  rewrite (parse_cmd_args_completed env Hall). cbn [fst snd].
  destruct (parse_loop_fields env _ Hall Cli.globals0 0%nat)
    as (_ & Hc & Hk & Hl & Hr & _).
  cbn [Cli.globals0 color classify long_format recursive orb] in *.
  auto.
Qed.

Lemma options_set_the_flags_witness :
  let g := fst (Cli.parse_cmd_args Cli.sample) in
  classify g = false /\ recursive g = true /\ long_format g = true
  /\ color g = false
  /\ snd (Cli.parse_cmd_args Cli.sample) = Some "dir".
Proof.
  assert (Hall : forallb Cli.recognised (Cli.getopt_long Cli.sample) = true)
    by reflexivity.
  exact (options_set_the_flags Cli.sample Hall).
Defined.

(** X2. The hidden-file policy is the one selected by the last [-a] or
    [-A] on the command line ([-a]: All, [-A]: Almost), and Default when
    neither is given; the other options do not touch it. *)
Theorem last_filter_option_wins (env : Cli.libc) :
  forallb Cli.recognised (Cli.getopt_long env) = true ->
  filter (fst (Cli.parse_cmd_args env)) = Cli.filter_choice (Cli.getopt_long env)
  /\ (forall pre opt post,
        Cli.getopt_long env = (pre ++ opt :: post)%list ->
        Cli.is_filter_opt opt = true ->
        List.filter Cli.is_filter_opt post = [] ->
        filter (fst (Cli.parse_cmd_args env))
        = if opt =? Cli.opt_of "a" then FILTER_ALL else FILTER_ALMOST)
  /\ (List.filter Cli.is_filter_opt (Cli.getopt_long env) = [] ->
      filter (fst (Cli.parse_cmd_args env)) = FILTER_DEFAULT).
Proof.
  intros Hall.
  assert (Hf : filter (fst (Cli.parse_cmd_args env))
               = Cli.filter_choice (Cli.getopt_long env)).
  { rewrite (parse_cmd_args_completed env Hall). cbn [fst].
    destruct (parse_loop_fields env _ Hall Cli.globals0 0%nat) as (Hf & _).
    exact Hf. }
  split; [exact Hf|]. split.
  - intros pre opt post Ho Hopt Hpost. rewrite Hf, Ho.
    unfold Cli.filter_choice.
    rewrite filter_app. cbn [List.filter]. rewrite Hopt, Hpost.
    rewrite rev_app_distr. reflexivity.
  - intros Hnone. rewrite Hf. unfold Cli.filter_choice. rewrite Hnone.
    reflexivity.
Qed.

Lemma last_filter_option_wins_witness :
  filter (fst (Cli.parse_cmd_args Cli.sample)) = FILTER_ALMOST.
Proof.
  assert (Hall : forallb Cli.recognised (Cli.getopt_long Cli.sample) = true)
    by reflexivity.
  destruct (last_filter_option_wins Cli.sample Hall) as (_ & Hlast & _).
  apply (Hlast (map Cli.opt_of ["l"; "a"; "R"]%char) (Cli.opt_of "A")
               [Cli.opt_of "l"]); reflexivity.
Defined.

(** X3. [half_year_ago] is set at each [-l], from a fresh reading of the
    clock: after the options it holds the time read at the last [-l] minus
    15768000 seconds, and it keeps its initial 0 when [-l] is not given. *)
Theorem half_year_ago_is_read_at_each_l (env : Cli.libc) :
  forallb Cli.recognised (Cli.getopt_long env) = true ->
  half_year_ago (fst (Cli.parse_cmd_args env))
  = match Cli.count_l (Cli.getopt_long env) with
    | O => 0
    | S k => long_wrap (Cli.time_at env k - 15768000)
    end.
Proof.
  intros Hall. rewrite (parse_cmd_args_completed env Hall). cbn [fst].
  destruct (parse_loop_fields env _ Hall Cli.globals0 0%nat)
    as (_ & _ & _ & _ & _ & Hh).
  exact Hh.
Qed.

Lemma half_year_ago_is_read_at_each_l_witness :
  half_year_ago (fst (Cli.parse_cmd_args Cli.sample)) = 1700000001 - 15768000.
Proof.
  assert (Hall : forallb Cli.recognised (Cli.getopt_long Cli.sample) = true)
    by reflexivity.
  exact (half_year_ago_is_read_at_each_l Cli.sample Hall).
Defined.

Lemma parse_loop_unknown (env : Cli.libc) (bad : Z) (post : list Z) (pre : list Z) :
  forallb Cli.recognised pre = true ->
  Cli.recognised bad = false ->
  forall g calls,
    snd (Cli.parse_loop env (pre ++ bad :: post) g calls) = false.
Proof.
  intros Hpre Hbad.
  induction pre as [|opt more IH]; intros g calls.
  - cbn [app Cli.parse_loop].
    unfold Cli.recognised, Cli.letters in Hbad. cbn [existsb] in Hbad.
    repeat (apply orb_false_iff in Hbad; destruct Hbad as [?H Hbad]).
    repeat match goal with H : (bad =? _) = false |- _ => rewrite H; clear H end.
    reflexivity.
  - cbn [forallb] in Hpre. apply andb_true_iff in Hpre. destruct Hpre as [Ho Hm].
    specialize (IH Hm).
    destruct (recognised_cases opt Ho) as [-> | [-> | [-> | [-> | [-> | ->]]]]];
      cbn [app Cli.parse_loop]; eval_letters; cbv iota; apply IH.
Qed.

(** X4. As soon as [getopt_long] returns anything but one of [aACFlR],
    [parse_cmd_args] returns [NULL], whatever follows on the command line;
    [main] then returns [EXIT_FAILURE] without listing anything, on any file
    system. *)
Theorem unknown_option_ends_the_program (env : Cli.libc)
    (pre : list Z) (bad : Z) (post : list Z) :
  Cli.getopt_long env = (pre ++ bad :: post)%list ->
  forallb Cli.recognised pre = true ->
  Cli.recognised bad = false ->
  snd (Cli.parse_cmd_args env) = None
  /\ forall fs n, Cli.main env fs n = Some (Cli.EXIT_FAILURE, no_world).
Proof.
  intros Ho Hpre Hbad.
  assert (Hp : snd (Cli.parse_cmd_args env) = None).
  { unfold Cli.parse_cmd_args. rewrite Ho.
    pose proof (parse_loop_unknown env bad post pre Hpre Hbad Cli.globals0 0%nat) as H.
    destruct (Cli.parse_loop env (pre ++ bad :: post) Cli.globals0 0)
      as [[g calls] completed].
    cbn [snd] in H. rewrite H. reflexivity. }
  split; [exact Hp|].
  intros fs n. unfold Cli.main.
  destruct (Cli.parse_cmd_args env) as [g [p|]]; [discriminate | reflexivity].
Qed.

Lemma unknown_option_ends_the_program_witness :
  Cli.main Cli.with_unknown Demo.tree 10 = Some (Cli.EXIT_FAILURE, no_world).
Proof.
  assert (Ho : Cli.getopt_long Cli.with_unknown
               = ([Cli.opt_of "R"] ++ Cli.opt_of "?" :: [])%list) by reflexivity.
  assert (Hpre : forallb Cli.recognised [Cli.opt_of "R"] = true) by reflexivity.
  assert (Hbad : Cli.recognised (Cli.opt_of "?") = false) by reflexivity.
  exact (proj2 (unknown_option_ends_the_program Cli.with_unknown
                  [Cli.opt_of "R"] (Cli.opt_of "?") [] Ho Hpre Hbad) Demo.tree 10%nat).
Defined.

(** ** Runs of the driver *)

Section Runs.

Variable cfg : config.
Variable fs : filesys.

Lemma run_done (n : nat) (s : state) : queue s = [] -> run cfg fs n s = s.
Proof.
  intros Hq. destruct n as [|n]; [reflexivity|].
  cbn [run]. unfold main_step. rewrite Hq. reflexivity.
Qed.

Lemma run_add (n k : nat) :
  forall s, run cfg fs (n + k) s = run cfg fs k (run cfg fs n s).
Proof.
  induction n as [|n IH]; intros s; [reflexivity|].
  cbn [Nat.add run].
  destruct (main_step cfg fs s) as [s'|] eqn:Hs; [apply IH|].
  symmetry. apply run_done.
  unfold main_step in Hs. destruct (queue s) as [|head next]; [reflexivity|].
  destruct (list_dir cfg fs head next _). discriminate.
Qed.

Lemma run_stable (n m : nat) (s : state) :
  queue (run cfg fs n s) = [] -> (n <= m)%nat ->
  run cfg fs m s = run cfg fs n s.
Proof.
  intros Hq Hle. replace m with (n + (m - n))%nat by lia.
  rewrite run_add. apply run_done, Hq.
Qed.

(** A property of nodes that passes from a directory to the nodes listing
    it inserts holds throughout a run. *)
Lemma run_queue_invariant (P : dir_path -> Prop) :
  (forall base d, P base -> In d (inserted cfg fs base) -> P d) ->
  forall n s, Forall P (queue s) -> Forall P (queue (run cfg fs n s)).
Proof.
  intros Hstep. induction n as [|n IH]; intros [q w] Hq; [exact Hq|].
  destruct q as [|head next]; [exact Hq|].
  cbn [run]. rewrite main_step_spec. apply IH. cbn [queue] in *.
  inversion Hq as [|? ? Hhead Hnext]; subst.
  apply Forall_app. split; [|assumption].
  apply Forall_forall. intros d Hin. exact (Hstep head d Hhead Hin).
Qed.

Lemma inserted_path (base n : dir_path) :
  In n (inserted cfg fs base) ->
  exists name,
    In name (entries fs base)
    /\ path n = entry_path (path_prefix (path base)) name
    /\ depth n = int_wrap (depth base + 1)
    /\ dot_or_dotdot name = false
    /\ strlen (path_prefix (path base)) + strlen name < PATH_MAX.
Proof.
  unfold inserted, entries.
  destruct (opendir fs (path base)) as [ents|e]; [|contradiction].
  destruct (too_long base) eqn:Ht; [contradiction|].
  intros Hin. apply in_flat_map in Hin. destruct Hin as (name & Hname & Hin).
  exists name. split; [assumption|].
  apply entry_node_is_dir in Hin.
  destruct Hin as (Hp & Hfit & Hdot & Hd & _). auto.
Qed.

Lemma starts_refl (s : string) : Spec2.starts s s.
Proof.
  exists "". induction s as [|c s IH]; cbn; [reflexivity | rewrite <- IH; reflexivity].
Qed.

Lemma starts_trans (a b c : string) :
  Spec2.starts a b -> Spec2.starts b c -> Spec2.starts a c.
Proof.
  intros [r1 ->] [r2 ->]. exists (r1 ++ r2). apply append_assoc_string.
Qed.

Lemma starts_path_prefix (p : string) : Spec2.starts p (path_prefix p).
Proof.
  unfold path_prefix. destruct (negb _); [exists "/"; reflexivity | apply starts_refl].
Qed.

Lemma leaks_are_too_long (n : nat) :
  forall s,
    Forall (fun q => PATH_MAX - 1 <= strlen q) (open_dirs (sys s)) ->
    Forall (fun q => PATH_MAX - 1 <= strlen q) (open_dirs (sys (run cfg fs n s))).
Proof.
  induction n as [|n IH]; intros [q w] Hw; [exact Hw|].
  destruct q as [|head next]; [exact Hw|].
  cbn [run]. rewrite main_step_spec. apply IH. cbn [sys open_dirs extend] in *.
  apply Forall_app. split; [|assumption].
  unfold left_open. destruct (opendir fs (path head)); [|constructor].
  destruct (too_long head) eqn:Ht; [|constructor].
  constructor; [|constructor].
  unfold too_long in Ht.
  destruct (Z.geb_spec (strlen (path head)) (PATH_MAX - 1)); [lia | discriminate].
Qed.

End Runs.

(** X5. A directory stream is left open only for a directory whose path has
    [PATH_MAX - 1] bytes or more: at every point of a run of [main], each
    stream that is open between two iterations belongs to such a path.  In
    particular a run that meets no such path leaves nothing open. *)
Theorem only_too_long_paths_leak (cfg : config) (fs : filesys) (p : string) (n : nat) :
  Forall (fun q => PATH_MAX - 1 <= strlen q)
         (open_dirs (sys (run cfg fs n (main_init p)))).
Proof.
  apply leaks_are_too_long. constructor.
Qed.

(** X6. On a platform whose directory entries have names, [main] comes to
    the end of its loop for every root path and every configuration: after
    some number of iterations the queue is empty, and further iterations
    change nothing. *)
Theorem ls_terminates (cfg : config) (fs : filesys) (p : string) :
  names_nonempty fs ->
  exists n,
    forall m, (n <= m)%nat ->
      queue (run cfg fs m (main_init p)) = []
      /\ run cfg fs m (main_init p) = run cfg fs n (main_init p).
Proof.
  intros Hn.
  destruct (traversal_terminates cfg fs Hn (queue (main_init p))) as [n Hf].
  exists n. intros m Hle.
  pose proof (finishes_run cfg fs n _ no_world Hf) as Hq.
  change {| queue := queue (main_init p); sys := no_world |} with (main_init p) in Hq.
  rewrite (run_stable cfg fs n m _ Hq Hle). auto.
Qed.

Lemma demo_names_nonempty : names_nonempty Demo.tree.
Proof.
  intros p ents. cbn [fs_opendir Demo.tree]. unfold Demo.assoc, Demo.dirs.
  cbn [List.find fst snd].
  repeat (destruct (String.eqb _ p);
          [intros H; inversion H; subst;
           repeat constructor; discriminate|]).
  discriminate.
Qed.

Lemma ls_terminates_witness :
  exists n,
    forall m, (n <= m)%nat ->
      queue (run (Demo.opts true false) Demo.tree m (main_init "root")) = []
      /\ run (Demo.opts true false) Demo.tree m (main_init "root")
         = run (Demo.opts true false) Demo.tree n (main_init "root").
Proof.
  exact (ls_terminates (Demo.opts true false) Demo.tree "root" demo_names_nonempty).
Defined.

(** X7. In a run of [main] the root is the only node of depth 0: after the
    first iteration every queued node has a depth of at least 1 and at most
    the length of its path, so each directory below the root is listed
    under its header and [depth + 1] never overflows. *)
Theorem only_the_root_has_depth_0 (cfg : config) (fs : filesys) (p : string) (n : nat) :
  names_nonempty fs ->
  depth (new_dir_path p 0) = 0
  /\ Forall (fun d => 1 <= depth d <= strlen (path d) /\ heading d = [header d])
            (queue (run cfg fs (S n) (main_init p))).
Proof.
  intros Hn. split; [reflexivity|].
  set (P := fun d => depth_within_path d /\ 1 <= depth d).
  assert (Hstep : forall base d,
             depth_within_path base -> In d (inserted cfg fs base) -> P d).
  { intros base d Hb Hin. split.
    - exact (inserted_depth_within_path cfg fs Hn base d Hb Hin).
    - destruct (inserted_longer cfg fs Hn base d Hin) as [_ Hd].
      unfold depth_within_path, PATH_MAX in Hb.
      rewrite Hd, int_wrap_small by (unfold INT_MAX; lia). lia. }
  assert (HP : Forall P (queue (run cfg fs (S n) (main_init p)))).
  { cbn [run]. unfold main_init at 1. rewrite main_step_spec.
    apply run_queue_invariant.
    - intros base d [Hb _] Hin. exact (Hstep base d Hb Hin).
    - cbn [queue]. rewrite app_nil_r. apply Forall_forall. intros d Hin.
      apply (Hstep (new_dir_path p 0)); [|exact Hin].
      pose proof (main_init_depth_within_path p) as H0.
      inversion H0; assumption. }
  eapply Forall_impl; [|exact HP].
  intros d [[[H0 Hlen] _] H1]. split; [lia|].
  unfold heading. destruct (Z.ltb_spec 0 (depth d)); [reflexivity | lia].
Qed.

Lemma only_the_root_has_depth_0_witness :
  Forall (fun d => 1 <= depth d <= strlen (path d) /\ heading d = [header d])
         (queue (run (Demo.opts true false) Demo.tree 1 (main_init "root"))).
Proof.
  exact (proj2 (only_the_root_has_depth_0 (Demo.opts true false) Demo.tree
                  "root" 0%nat demo_names_nonempty)).
Defined.

(** X8. The traversal stays below its root: the path of every node that is
    ever queued begins with the path of the root. *)
Theorem queued_paths_extend_the_root (cfg : config) (fs : filesys) (p : string) (n : nat) :
  Forall (fun d => Spec2.starts (path (new_dir_path p 0)) (path d))
         (queue (run cfg fs n (main_init p))).
Proof.
  apply run_queue_invariant.
  - intros base d Hb Hin.
    destruct (inserted_path cfg fs base d Hin) as (name & _ & Hp & _).
    apply (starts_trans _ (path base)); [exact Hb|].
    apply (starts_trans _ (path_prefix (path base)));
      [apply starts_path_prefix|].
    rewrite Hp. unfold entry_path. eexists. reflexivity.
  - constructor; [apply starts_refl | constructor].
Qed.

(** ** Listing without recursion, and what is never queued *)

Lemma flat_map_empty {A B : Type} (f : A -> list B) (l : list A) :
  (forall a, In a l -> f a = []) -> flat_map f l = [].
Proof.
  induction l as [|a l IH]; intros H; [reflexivity|].
  cbn [flat_map]. rewrite (H a) by (left; reflexivity).
  apply IH. intros b Hb. apply H. right. exact Hb.
Qed.

Lemma inserted_without_R (cfg : config) (fs : filesys) (base : dir_path) :
  recursive cfg = false -> inserted cfg fs base = [].
Proof.
  intros Hr. unfold inserted.
  destruct (opendir fs (path base)); [|reflexivity].
  destruct (too_long base); [reflexivity|].
  apply flat_map_empty. intros name _. unfold entry_node. rewrite Hr.
  destruct (hidden (filter cfg) name); [reflexivity|].
  destruct (fs_lstat fs _); reflexivity.
Qed.

(** X9. Without [-R] nothing is ever queued: [main] lists the root
    directory, writes no header, and its loop ends after the first
    iteration whatever the directory holds. *)
Theorem without_R_only_the_root_is_listed (cfg : config) (fs : filesys)
    (p : string) (n : nat) :
  recursive cfg = false ->
  let root := new_dir_path p 0 in
  (forall base, inserted cfg fs base = [])
  /\ run cfg fs (S n) (main_init p)
     = {| queue := [];
          sys := extend no_world (listing cfg fs root) (left_open fs root) |}.
Proof.
  intros Hr root. split; [intros base; apply inserted_without_R, Hr|].
  cbn [run]. unfold main_init. rewrite main_step_spec.
  rewrite (inserted_without_R cfg fs _ Hr). cbn [app depth new_dir_path].
  apply run_done. reflexivity.
Qed.

Lemma without_R_only_the_root_is_listed_witness :
  queue (run (Demo.opts false false) Demo.tree 3 (main_init "root")) = []
  /\ trace (sys (run (Demo.opts false false) Demo.tree 3 (main_init "root")))
     = listing (Demo.opts false false) Demo.tree (new_dir_path "root" 0).
Proof.
  assert (Hr : recursive (Demo.opts false false) = false) by reflexivity.
  destruct (without_R_only_the_root_is_listed (Demo.opts false false) Demo.tree
              "root" 2%nat Hr) as [_ Hrun].
  rewrite Hrun. split; reflexivity.
Defined.

(** X10. The exit status does not reflect listing errors: when the options
    are accepted and the root directory cannot be opened, [main] writes the
    one diagnostic for it, [<path>: <reason>] or the reason alone when the
    path is empty, and returns [EXIT_SUCCESS]. *)
Theorem exit_status_ignores_listing_errors (env : Cli.libc) (fs : filesys)
    (p : string) (e : Z) (n : nat) :
  snd (Cli.parse_cmd_args env) = Some p ->
  opendir fs (path (new_dir_path p 0)) = Fail e ->
  Cli.main env fs (S n)
  = Some (Cli.EXIT_SUCCESS,
          {| trace := [if String.eqb (path (new_dir_path p 0)) ""
                       then Stderr (strerror fs e ++ String "010"%char "")
                       else Stderr (path (new_dir_path p 0) ++ ": "
                                    ++ strerror fs e ++ String "010"%char "")];
             open_dirs := [] |}).
Proof.
  intros Hp Ho. unfold Cli.main.
  destruct (Cli.parse_cmd_args env) as [cfg q]. cbn [snd] in Hp. subst q.
  cbn [run]. unfold main_init. rewrite main_step_spec.
  unfold inserted, listing, left_open. rewrite Ho.
  cbn [app depth new_dir_path]. rewrite run_done by reflexivity.
  reflexivity.
Qed.

Lemma exit_status_ignores_listing_errors_witness :
  Cli.main
    {| Cli.getopt_long := []; Cli.optind := 1; Cli.argv := ["ls11"; "root/b/locked"];
       Cli.isatty := false; Cli.time_at := fun _ => 0 |}
    Demo.tree 1
  = Some (Cli.EXIT_SUCCESS,
          {| trace := [Stderr ("root/b/locked: Permission denied" ++ String "010"%char "")];
             open_dirs := [] |})
  /\ Cli.main
       {| Cli.getopt_long := []; Cli.optind := 1; Cli.argv := ["ls11"; ""];
          Cli.isatty := false; Cli.time_at := fun _ => 0 |}
       Demo.tree 1
     = Some (Cli.EXIT_SUCCESS,
             {| trace := [Stderr ("No such file or directory" ++ String "010"%char "")];
                open_dirs := [] |}).
Proof.
  split.
  - apply (exit_status_ignores_listing_errors _ Demo.tree "root/b/locked"
             Demo.EACCES 0%nat); reflexivity.
  - apply (exit_status_ignores_listing_errors _ Demo.tree "" ENOENT 0%nat);
      reflexivity.
Defined.

Lemma not_dot_or_dotdot (name : string) :
  dot_or_dotdot name = false -> name <> "." /\ name <> "..".
Proof. intros H. split; intros ->; discriminate H. Qed.

(** X11. The entries [.] and [..] are never queued, under any filter and
    whatever their metadata says: every node that [list_dir] adds to the
    list comes from an entry of another name, and the loop leaves the list
    as it is at such an entry.  With [-a] they are still listed. *)
Theorem dot_entries_are_never_queued (cfg : config) (fs : filesys) :
  (forall base next w n,
      In n (fst (list_dir cfg fs base next w)) ->
      n = base \/ In n next
      \/ exists ents name,
           opendir fs (path base) = Ok ents /\ In name ents
           /\ name <> "." /\ name <> ".."
           /\ path n = path_prefix (path base) ++ name)
  /\ (forall prefix d name c w,
        name = "." \/ name = ".." ->
        fst (read_loop cfg fs prefix d [name] c w) = c)
  /\ (forall prefix d name c w st,
        name = "." \/ name = ".." ->
        filter cfg = FILTER_ALL ->
        fs_lstat fs (prefix ++ name) = Ok st ->
        read_loop cfg fs prefix d [name] c w
        = (c, emit (Stdout (print_entry cfg fs name st
                              (resolve_link fs (prefix ++ name) (st_mode st)))) w)).
Proof.
  split; [|split].
  - intros base next w n. rewrite list_dir_spec. cbn [fst].
    intros [<-|Hin]; [auto|].
    apply in_app_or in Hin. destruct Hin as [Hin|Hin]; [|auto].
    right. right.
    destruct (inserted_path cfg fs base n Hin) as (name & Hname & Hp & _ & Hdot & _).
    destruct (not_dot_or_dotdot name Hdot) as [H1 H2].
    unfold entries in Hname.
    destruct (opendir fs (path base)) as [ents|e]; [|contradiction].
    destruct (too_long base); [contradiction|].
    exists ents, name. auto 6.
  - intros prefix d name c w Hname.
    assert (Hd : dot_or_dotdot name = true)
      by (destruct Hname as [-> | ->]; reflexivity).
    cbn [read_loop].
    destruct (hidden (filter cfg) name); [reflexivity|].
    destruct (fs_lstat fs _); [|reflexivity].
    rewrite Hd. cbn [negb]. destruct (_ && _); reflexivity.
  - intros prefix d name c w st Hname Hf Hl.
    assert (Hd : dot_or_dotdot name = true)
      by (destruct Hname as [-> | ->]; reflexivity).
    assert (Hh : hidden (filter cfg) name = false).
    { rewrite Hf. destruct Hname as [-> | ->]; reflexivity. }
    change (prefix ++ name) with (entry_path prefix name) in *.
    cbn [read_loop].
    rewrite Hh, (buffer_path_fits fs prefix name (lstat_ok_fits fs prefix name st Hl)), Hl, Hd.
    cbn [negb]. destruct (_ && _); reflexivity.
Qed.

Lemma dot_entries_are_never_queued_witness :
  fst (read_loop (Demo.opts true false) Demo.tree "root/" 0 [".."]
         {| upto := []; after := [] |} no_world)
  = {| upto := []; after := [] |}.
Proof.
  apply (proj1 (proj2 (dot_entries_are_never_queued (Demo.opts true false) Demo.tree))).
  right. reflexivity.
Defined.

(** ** What a listing writes *)

(** X12. With none of [-C], [-F], [-l], for a directory whose visible
    entries all have readable metadata, [list_dir] writes the visible names,
    each followed by a newline, in the order [readdir] gave them, and nothing
    else: nothing is sorted, dropped or repeated. *)
Theorem plain_listing_is_the_visible_names (cfg : config) (fs : filesys)
    (base : dir_path) (next : list dir_path) (w : world) (ents : list string) :
  color cfg = false -> classify cfg = false -> long_format cfg = false ->
  opendir fs (path base) = Ok ents ->
  too_long base = false ->
  (forall name, In name ents -> hidden (filter cfg) name = false ->
                exists st, fs_lstat fs (path_prefix (path base) ++ name) = Ok st) ->
  trace (snd (list_dir cfg fs base next w))
  = (trace w
     ++ map (fun name => Stdout (name ++ String "010"%char ""))
            (List.filter (fun name => negb (hidden (filter cfg) name)) ents))%list.
Proof.
  intros Hc Hk Hl Ho Ht Hread. rewrite list_dir_spec. cbn [snd trace extend].
  f_equal. unfold listing. rewrite Ho, Ht. clear Ho.
  induction ents as [|name more IH]; [reflexivity|].
  cbn [flat_map List.filter].
  rewrite IH by (intros n Hn; apply Hread; right; exact Hn).
  specialize (Hread name (or_introl eq_refl)).
  unfold entry_events.
  destruct (hidden (filter cfg) name); [reflexivity|].
  cbn [negb]. destruct (Hread eq_refl) as [st Hst].
  change (path_prefix (path base) ++ name)
    with (entry_path (path_prefix (path base)) name) in Hst.
  rewrite lstat_buffer_path, Hst.
  unfold print_entry. rewrite Hc, Hk, Hl. reflexivity.
Qed.

Lemma plain_listing_is_the_visible_names_witness :
  trace (snd (list_dir (Demo.opts true false) Demo.tree
                {| path := "root/a"; depth := 1 |} [] no_world))
  = [Stdout ("x" ++ String "010"%char ""); Stdout ("dangling" ++ String "010"%char ""); Stdout ("mute" ++ String "010"%char "")].
Proof.
  apply (plain_listing_is_the_visible_names (Demo.opts true false) Demo.tree
           {| path := "root/a"; depth := 1 |} [] no_world
           ["."; ".."; "x"; "dangling"; "mute"]);
    try reflexivity.
  intros name Hin _. cbn in Hin.
  repeat (destruct Hin as [<- | Hin]; [eexists; reflexivity|]). contradiction.
Defined.

(** X13. What [list_dir] writes for a directory it could open holds one
    record for each visible entry and none for a hidden one: standard
    output carries the text of exactly the entries whose [lstat] succeeds,
    standard error the diagnostic of exactly those whose [lstat] fails, each
    once and in reading order. *)
Theorem one_record_per_visible_entry (cfg : config) (fs : filesys)
    (base : dir_path) (next : list dir_path) (w : world) (ents : list string) :
  opendir fs (path base) = Ok ents ->
  too_long base = false ->
  let prefix := path_prefix (path base) in
  exists added,
    trace (snd (list_dir cfg fs base next w)) = (trace w ++ added)%list
    /\ List.filter Spec2.is_stdout added
       = flat_map (fun name =>
           if hidden (filter cfg) name then []
           else match fs_lstat fs (prefix ++ name) with
                | Ok st => [Stdout (print_entry cfg fs name st
                                      (resolve_link fs (prefix ++ name) (st_mode st)))]
                | Fail _ => []
                end) ents
    /\ List.filter Spec2.is_stderr added
       = flat_map (fun name =>
           if hidden (filter cfg) name then []
           else match fs_lstat fs (buffer_path fs prefix name) with
                | Ok _ => []
                | Fail e => [Stderr (buffer_path fs prefix name ++ ": "
                                     ++ strerror fs e ++ String "010"%char "")]
                end) ents
    /\ List.length added
       = List.length (List.filter (fun name => negb (hidden (filter cfg) name)) ents).
Proof.
  intros Ho Ht prefix.
  exists (flat_map (entry_events cfg fs prefix) ents).
  split.
  { rewrite list_dir_spec. cbn [snd trace extend]. unfold listing.
    rewrite Ho, Ht. reflexivity. }
  clear Ho.
  induction ents as [|name more IH]; [auto|].
  destruct IH as (IH1 & IH2 & IH3).
  cbn [flat_map List.filter]. rewrite !filter_app, !length_app, IH1, IH2, IH3.
  unfold entry_events.
  destruct (hidden (filter cfg) name); cbn [negb]; [auto|].
  change (prefix ++ name) with (entry_path prefix name).
  rewrite <- lstat_buffer_path.
  destruct (fs_lstat fs (buffer_path fs prefix name)) as [st|e] eqn:Hl.
  - destruct (lstat_ok_buffer fs prefix name st Hl) as [Hb _]. rewrite Hb.
    cbn. auto.
  - rewrite perror_nonempty
      by (apply buffer_path_nonempty, path_prefix_nonempty).
    cbn. auto.
Qed.

Lemma one_record_per_visible_entry_witness :
  exists added,
    trace (snd (list_dir (Demo.opts true false) Demo.tree
                  (new_dir_path "root" 0) [] no_world)) = added
    /\ List.filter Spec2.is_stderr added
       = [Stderr ("root/gone: No such file or directory" ++ String "010"%char "")]
    /\ List.length added = 5%nat.
Proof.
  assert (Ho : opendir Demo.tree (path (new_dir_path "root" 0))
               = Ok ["."; ".."; "a"; "f"; "gone"; "b"; "l"; ".hid"]) by reflexivity.
  assert (Ht : too_long (new_dir_path "root" 0) = false) by reflexivity.
  destruct (one_record_per_visible_entry (Demo.opts true false) Demo.tree
              (new_dir_path "root" 0) [] no_world _ Ho Ht)
    as (added & H0 & _ & H2 & H3).
  exists added. split; [exact H0|]. split; [exact H2 | exact H3].
Defined.

(** X14. The three policies are nested: a name hidden under Almost is
    hidden under Default, and nothing is hidden under All; so each of
    Default, Almost, All shows at least what the one before it shows. *)
Theorem filter_policies_are_nested (name : string) :
  (hidden FILTER_ALMOST name = true -> hidden FILTER_DEFAULT name = true)
  /\ hidden FILTER_ALL name = false.
Proof.
  rewrite !hidden_unfold. split; [|reflexivity].
  unfold dot_or_dotdot. intros H. apply andb_true_iff in H. tauto.
Qed.

Lemma filter_policies_are_nested_witness :
  hidden FILTER_DEFAULT ".." = true.
Proof.
  apply (filter_policies_are_nested ".."). reflexivity.
Defined.

(** ** Type indicators and colors *)

Ltac by_type t :=
  destruct (Z.eqb_spec t 6); [|destruct (Z.eqb_spec t 2);
  [|destruct (Z.eqb_spec t 4); [|destruct (Z.eqb_spec t 8);
  [|destruct (Z.eqb_spec t 1); [|destruct (Z.eqb_spec t 10);
  [|destruct (Z.eqb_spec t 12)]]]]]].

(** X15. The glyph of classify mode is [*] for a regular file with some
    execute bit, [/] for a directory, [@] for a symbolic link, [|] for a
    fifo, [=] for a socket, and nothing for a regular file without execute
    bit, a device or an unknown type; never more than one character. *)
Theorem type_indicator_by_type (mode : mode_t) :
  print_type_indicator mode = Spec2.indicator mode
  /\ (String.length (print_type_indicator mode) <= 1)%nat.
Proof.
  assert (H : print_type_indicator mode = Spec2.indicator mode).
  { destruct (type_tests mode) as (_ & _ & Td & Tr & Tp & Tl & Ts).
    unfold print_type_indicator, Spec2.indicator, Spec.type_of.
    rewrite Td, Tr, Tp, Tl, Ts, has_IXUGO.
    set (t := Z.land (Z.shiftr mode 12) 15).
    by_type t; try reflexivity; try lia;
      repeat match goal with
      | |- context [?a =? ?b] => destruct (Z.eqb_spec a b); try lia
      end; reflexivity. }
  split; [exact H|]. rewrite H. unfold Spec2.indicator.
  destruct (Spec.type_of mode); try destruct (Spec.any_exec mode); cbn; lia.
Qed.

(** X16. In color mode a name whose link resolves is styled by its type: a
    directory black on green if sticky and writable by others, blue on green
    if only writable by others, white on blue if only sticky, bold blue
    otherwise; a symbolic link bold cyan, a fifo yellow, a socket bold
    magenta, a block or character device bold yellow; for a mode of no known
    type no escape sequence precedes the name. *)
Theorem name_style_by_type (mode : mode_t) :
  Spec.style_of (color_escape mode true) = Spec2.style_by_type mode
  /\ (Spec.type_of mode = Spec.Unknown -> color_escape mode true = "").
Proof.
  destruct (type_tests mode) as (Tb & Tc & Td & Tr & Tp & Tl & Ts).
  destruct (perm_bits mode)
    as (_ & H1 & _ & _ & _ & _ & _ & _ & _ & H9 & H10 & H11).
  unfold color_escape, Spec2.style_by_type, Spec.type_of.
  rewrite Tb, Tc, Td, Tr, Tp, Tl, Ts, H1, H9, H10, H11, has_IXUGO.
  unfold Spec.regular_style, Spec2.directory_style, Spec.setuid, Spec.setgid,
    Spec.sticky, Spec2.other_writable.
  set (t := Z.land (Z.shiftr mode 12) 15).
  cbn [negb].
  split.
  - by_type t;
      repeat match goal with
      | |- context [?a =? ?b] => destruct (Z.eqb_spec a b); try lia
      end;
      try reflexivity;
      repeat match goal with
      | |- context [Z.testbit mode ?k] => destruct (Z.testbit mode k)
      end;
      try reflexivity;
      destruct (Spec.any_exec mode); reflexivity.
  - by_type t; try discriminate;
      repeat match goal with
      | |- context [?a =? ?b] => destruct (Z.eqb_spec a b); try lia
      end;
      reflexivity.
Qed.



(** ** Owner and group columns *)

Lemma spaces_length (n : nat) : String.length (spaces n) = n.
Proof. induction n as [|n IH]; cbn; [reflexivity | rewrite IH; reflexivity]. Qed.

Lemma pad_left_length (w : nat) (s : string) :
  String.length (pad_left w s) = Nat.max w (String.length s).
Proof. unfold pad_left. rewrite length_app_string, spaces_length. lia. Qed.

Lemma pad_left_wide (w : nat) (s : string) :
  (w <= String.length s)%nat -> pad_left w s = s.
Proof.
  intros H. unfold pad_left.
  replace (w - String.length s)%nat with 0%nat by lia. reflexivity.
Qed.

(** X18. The owner and group columns are the name, or the number when the
    id has no name, right-aligned in 8 characters and followed by one
    space.  A longer name is not cut: it is written in full, and the column
    is wider by the excess. *)
Theorem owner_and_group_columns (fs : filesys) (uid gid : Z) :
  let user := Spec2.id_field (getpwuid fs uid) uid in
  let group := Spec2.id_field (getgrgid fs gid) gid in
  print_user fs uid = spaces (8 - String.length user) ++ user ++ " "
  /\ print_group fs gid = spaces (8 - String.length group) ++ group ++ " "
  /\ String.length (print_user fs uid) = S (Nat.max 8 (String.length user))
  /\ String.length (print_group fs gid) = S (Nat.max 8 (String.length group))
  /\ ((8 <= String.length user)%nat -> print_user fs uid = user ++ " ")
  /\ ((8 <= String.length group)%nat -> print_group fs gid = group ++ " ").
Proof.
  intros user group. subst user group.
  unfold print_user, print_group, Spec2.id_field, fmt_d.
  destruct (getpwuid fs uid) as [pw|]; destruct (getgrgid fs gid) as [gr|];
    repeat split;
    try (unfold pad_left; rewrite append_assoc_string; reflexivity);
    try (rewrite length_app_string, pad_left_length; cbn; lia);
    try (intros H; rewrite pad_left_wide by exact H; reflexivity).
Qed.

(** X19. An id of 2^31 or more that has no name is written as a negative
    number: [%d] reads the unsigned id as an [int]. *)
Theorem large_ids_print_negative (fs : filesys) (uid : Z) :
  getpwuid fs uid = None ->
  2 ^ 31 <= uid < 2 ^ 32 ->
  exists digits,
    Z_to_string (uid - 2 ^ 32) = String "-" digits
    /\ print_user fs uid = pad_left 8 (String "-" digits) ++ " ".
Proof.
  intros Hpw Hr.
  assert (Hw : int_wrap uid = uid - 2 ^ 32).
  { unfold int_wrap.
    replace (uid + 2 ^ 31) with ((uid - 2 ^ 31) + 1 * 2 ^ 32) by lia.
    rewrite Z.mod_add by lia. rewrite Z.mod_small by lia. lia. }
  assert (Hneg : uid - 2 ^ 32 < 0) by lia.
  destruct (uid - 2 ^ 32) as [|q|q] eqn:E; try lia.
  exists (NilEmpty.string_of_uint (Pos.to_uint q)).
  split; [reflexivity|].
  unfold print_user, fmt_d. rewrite Hpw, Hw. reflexivity.
Qed.

Lemma large_ids_print_negative_witness :
  exists digits,
    Z_to_string (4294967294 - 2 ^ 32) = String "-" digits
    /\ print_user Demo.deep 4294967294 = pad_left 8 (String "-" digits) ++ " ".
Proof.
  assert (Hpw : getpwuid Demo.deep 4294967294 = None) by reflexivity.
  assert (Hr : 2 ^ 31 <= 4294967294 < 2 ^ 32) by (cbn; lia).
  exact (large_ids_print_negative Demo.deep 4294967294 Hpw Hr).
Defined.

(** ** Paths in fixed buffers *)

Lemma char_at_end (s : string) (c : ascii) :
  char_at (s ++ String c "") (String.length s) = c.
Proof. induction s as [|x s IH]; cbn; [reflexivity | exact IH]. Qed.

Lemma last_char_app (s : string) (c : ascii) :
  last_char (s ++ String c "") = c.
Proof.
  unfold last_char. rewrite length_app_string. cbn [String.length].
  replace (String.length s + 1 - 1)%nat with (String.length s) by lia.
  apply char_at_end.
Qed.

(** X20. For a base path that is not empty, the prefix of the entry paths
    is the base path with exactly one [/] added when it does not already end
    in one: it always ends in [/], and a base path given with its final [/]
    is used as it is. *)
Theorem path_prefix_ends_in_slash (p : string) :
  p <> "" ->
  last_char (path_prefix p) = "/"%char
  /\ (last_char p = "/"%char -> path_prefix p = p)
  /\ (last_char p <> "/"%char -> path_prefix p = p ++ "/")
  /\ path_prefix (path_prefix p) = path_prefix p.
Proof.
  intros _.
  assert (Hlast : last_char (path_prefix p) = "/"%char).
  { unfold path_prefix.
    destruct (ascii_is (last_char p) "/") eqn:E; cbn [negb].
    - apply ascii_is_true, E.
    - apply last_char_app. }
  split; [exact Hlast|]. split; [|split].
  - intros H. unfold path_prefix. rewrite H. reflexivity.
  - intros H. unfold path_prefix.
    destruct (ascii_is (last_char p) "/") eqn:E; [|reflexivity].
    apply ascii_is_true in E. contradiction.
  - unfold path_prefix at 1. rewrite Hlast. reflexivity.
Qed.

Lemma path_prefix_ends_in_slash_witness :
  path_prefix "root" = "root/" /\ path_prefix "root/" = "root/".
Proof.
  assert (H1 : "root" <> "") by discriminate.
  assert (H2 : "root/" <> "") by discriminate.
  split.
  - apply (proj1 (proj2 (proj2 (path_prefix_ends_in_slash "root" H1)))).
    vm_compute. discriminate.
  - apply (proj1 (proj2 (path_prefix_ends_in_slash "root/" H2))). reflexivity.
Defined.

(** X21. [list_dir] never writes past its path buffer, but a name that
    does not fit makes it read past it.  For a base path that passed the
    length test, [PATH_MAX - path_len] is at least 1 and the bytes copied
    for a name fit in that room.  A name shorter than the room is in the
    buffer in full, terminated.  A longer one is cut and left without
    terminator: buffer and what lies past it are read as the path, [lstat]
    fails with [ENAMETOOLONG], the entry is neither listed nor queued, and
    the one diagnostic shows the path as read. *)
Theorem entry_path_buffer_bounds (cfg : config) (fs : filesys)
    (base : dir_path) (name : string) :
  too_long base = false ->
  let prefix := path_prefix (path base) in
  let room := PATH_MAX - strlen prefix in
  let copied := CStr.strncpy (Z.to_nat room) name in
  1 <= room
  /\ strlen copied <= room
  /\ (strlen name < room -> buffer_path fs prefix name = prefix ++ name)
  /\ (room <= strlen name ->
      strlen (prefix ++ copied) = PATH_MAX
      /\ buffer_path fs prefix name
         = (prefix ++ copied) ++ past_buffer fs (prefix ++ copied)
      /\ fs_lstat fs (buffer_path fs prefix name) = Fail ENAMETOOLONG
      /\ (hidden (filter cfg) name = false ->
          forall c w,
            read_loop cfg fs prefix (depth base) [name] c w
            = (c, emit (Stderr (buffer_path fs prefix name ++ ": "
                                ++ strerror fs ENAMETOOLONG ++ String "010"%char "")) w))).
Proof.
  intros Ht prefix room copied. subst room copied.
  assert (Hp : strlen prefix <= PATH_MAX - 1).
  { unfold too_long in Ht.
    destruct (Z.geb_spec (strlen (path base)) (PATH_MAX - 1)); [discriminate|].
    pose proof (path_prefix_length (path base)). subst prefix. lia. }
  pose proof (strncpy_length (Z.to_nat (PATH_MAX - strlen prefix)) name) as Hn.
  split; [lia|]. split; [unfold strlen in *; lia|]. split.
  - intros Hfit. apply buffer_path_fits. lia.
  - intros Hlong.
    assert (Hlen : strlen (prefix ++ CStr.strncpy (Z.to_nat (PATH_MAX - strlen prefix)) name)
                   = PATH_MAX).
    { unfold strlen in *. rewrite length_app_string, strncpy_full by lia. lia. }
    assert (Hb : buffer_path fs prefix name
                 = (prefix ++ CStr.strncpy (Z.to_nat (PATH_MAX - strlen prefix)) name)
                   ++ past_buffer fs
                        (prefix ++ CStr.strncpy (Z.to_nat (PATH_MAX - strlen prefix)) name)).
    { unfold buffer_path.
      destruct (Z.ltb_spec (strlen prefix + strlen name) PATH_MAX); [lia | reflexivity]. }
    assert (Hl : fs_lstat fs (buffer_path fs prefix name) = Fail ENAMETOOLONG).
    { pose proof (buffer_path_long fs prefix name ltac:(lia)) as Hge.
      unfold fs_lstat.
      destruct (Z.leb_spec PATH_MAX (strlen (buffer_path fs prefix name)));
        [reflexivity | lia]. }
    split; [exact Hlen|]. split; [exact Hb|]. split; [exact Hl|].
    intros Hh c w. cbn [read_loop]. rewrite Hh, Hl.
    rewrite perror_nonempty
      by (apply buffer_path_nonempty, path_prefix_nonempty).
    reflexivity.
Qed.

Lemma entry_path_buffer_bounds_witness :
  buffer_path Demo.tree (path_prefix "root") "a" = "root/" ++ "a"
  /\ fs_lstat Demo.deep
       (buffer_path Demo.deep (path_prefix (Demo.slashes 4090)) "abcdefghij")
     = Fail ENAMETOOLONG.
Proof.
  split.
  - assert (Ht : too_long {| path := "root"; depth := 0 |} = false) by reflexivity.
    apply (proj1 (proj2 (proj2
             (entry_path_buffer_bounds (Demo.opts true false) Demo.tree
                {| path := "root"; depth := 0 |} "a" Ht)))).
    vm_compute. reflexivity.
  - assert (Ht : too_long {| path := Demo.slashes 4090; depth := 0 |} = false)
      by (vm_compute; reflexivity).
    apply (proj2 (proj2 (proj2
             (entry_path_buffer_bounds (Demo.opts true false) Demo.deep
                {| path := Demo.slashes 4090; depth := 0 |} "abcdefghij" Ht)))).
    vm_compute. discriminate.
Defined.

(** ** The time column, from the command line on *)

(** X22. With [-l], an entry gets the short time format exactly when it was
    modified later than 15768000 seconds before the clock reading of the
    last [-l]; there is no upper limit, so an entry dated in the future
    gets the short format too.  (The times and their differences are
    [time_t] values.) *)
Theorem recent_and_future_entries_are_short (env : Cli.libc) (k : nat) (mtime : Z) :
  forallb Cli.recognised (Cli.getopt_long env) = true ->
  Cli.count_l (Cli.getopt_long env) = S k ->
  let now := Cli.time_at env k in
  in_time_t (now - 15768000) ->
  in_time_t (mtime - (now - 15768000)) ->
  let g := fst (Cli.parse_cmd_args env) in
  long_format g = true
  /\ (time_format (half_year_ago g) mtime = short_format <-> now - 15768000 < mtime)
  /\ (now <= mtime -> time_format (half_year_ago g) mtime = short_format).
Proof.
  intros Hall Hk now Hnow Hd g. subst g.
  rewrite (parse_cmd_args_completed env Hall). cbn [fst].
  destruct (parse_loop_fields env _ Hall Cli.globals0 0%nat)
    as (_ & _ & _ & Hl & _ & Hh).
  rewrite Hk in Hh. cbn [Nat.add] in Hh.
  change Cli.HALF_YEAR_SECOND with 15768000 in Hh. fold now in Hh.
  rewrite Hh, Hl, (long_wrap_small _ Hnow).
  assert (Hg : Cli.given "l" (Cli.getopt_long env) = true).
  { unfold Cli.count_l in Hk. unfold Cli.given.
    destruct (List.filter (Z.eqb (Cli.opt_of "l")) (Cli.getopt_long env))
      as [|o l] eqn:Hf; [discriminate|].
    assert (Hin : In o (List.filter (Z.eqb (Cli.opt_of "l")) (Cli.getopt_long env)))
      by (rewrite Hf; left; reflexivity).
    apply filter_In in Hin. apply existsb_exists. exists o. exact Hin. }
  rewrite Hg. split; [reflexivity|].
  unfold time_format. rewrite (long_wrap_small _ Hd).
  destruct (Z.gtb_spec (mtime - (now - 15768000)) 0) as [Hgt|Hle].
  - split; [split; [lia | reflexivity] | reflexivity].
  - split; [split; [discriminate | lia] | lia].
Qed.

Lemma recent_and_future_entries_are_short_witness :
  time_format (half_year_ago (fst (Cli.parse_cmd_args Cli.sample))) 1800000000
  = short_format.
Proof.
  assert (Hall : forallb Cli.recognised (Cli.getopt_long Cli.sample) = true)
    by reflexivity.
  assert (Hk : Cli.count_l (Cli.getopt_long Cli.sample) = 2%nat) by reflexivity.
  assert (H1 : in_time_t (Cli.time_at Cli.sample 1 - 15768000))
    by (unfold in_time_t; cbn; lia).
  assert (H2 : in_time_t (1800000000 - (Cli.time_at Cli.sample 1 - 15768000)))
    by (unfold in_time_t; cbn; lia).
  apply (recent_and_future_entries_are_short Cli.sample 1 1800000000 Hall Hk H1 H2).
  cbn. lia.
Defined.
